(** * Car_Creator: the DCGAN training script [main.py]

    A shallow embedding of the script's own logic: the preprocessing
    arithmetic, the [tf.data] input pipeline, the layer lists of the two
    networks with Keras' shape inference, and the training procedure
    [train_dcgan] with [generate_and_save_images], run in a small
    state-and-exception monad that records every framework call in a log.

    What the numerical framework computes (convolutions, gradients,
    optimizer updates, random draws) is not in the script; it enters
    through the interfaces [Random] and [Backend]. *)

From Stdlib Require Import QArith Lqa Reals Lra.
From stdpp Require Import gmap strings list pretty.

Set Default Proof Using "Type".

(* ================================================================= *)
(** * Part I: definitions *)
(* ================================================================= *)

(** ** Tensors

    A finite float32 value is a dyadic rational, so tensor entries are
    carried as [Q]; rounding is not modelled.  A tensor of rank [k] is a
    [k]-fold nested list, outermost axis first. *)

Definition scalar : Type := Q.
Definition row : Type := list scalar.          (* shape [d]       *)
Definition plane : Type := list (list scalar). (* shape [h, w]    *)
Definition image : Type := list (list (list scalar)). (* shape [h, w, c] *)

(** [has_shape3 h w c img]: the nested list [img] is a full [h, w, c] block. *)
Definition has_shape3 (h w c : nat) (img : image) : Prop :=
  length img = h ∧
  Forall (λ line, length line = w ∧ Forall (λ px : list scalar, length px = c) line) img.

(** ** Task 2 and Task 8: preprocessing *)

Module Preprocess.

  (** [x.astype(np.float32) / 255.0], one entry. *)
Definition to_unit (p : Q) : Q := (p / 255)%Q.

  (** [x * 2. - 1.], one entry. *)
Definition to_tanh_range (v : Q) : Q := (v * 2 - 1)%Q.

  (** [x * 127.5 + 127.5], one entry (the display path of
      [generate_and_save_images]). *)
Definition denormalize (v : Q) : Q := (v * 127.5 + 127.5)%Q.

  (** The raw data set: [N] images of 28 by 28 [uint8] entries. *)
Definition raw_image : Type := list (list Z).

  (** [x_train = x_train.astype(np.float32) / 255.0] *)
Definition x_train (raw : list raw_image) : list plane :=
    map (map (map (λ p, to_unit (inject_Z p)))) raw.

  (** [x_train_dcgan = x_train.reshape(-1, 28, 28, 1) * 2. - 1.]: the
      reshape adds the trailing channel axis of length one. *)
Definition x_train_dcgan (x : list plane) : list image :=
    map (map (map (λ v, [to_tanh_range v]))) x.

End Preprocess.

(** ** Random sources

    [rand_below g n] is the uniform draw in [[0, n)] that the shuffle
    buffer makes; [rand_normal g] is one sample of [tf.random.normal]. *)

Class Random := {
  RNG : Type;
  rand_below : RNG → nat → nat * RNG;
  rand_normal : RNG → scalar * RNG;
}.

(** ** Task 3: the [tf.data] pipeline *)

Module Data.
Section Pipeline.
Context `{Random} {A : Type}.

  (** One pass over a dataset: the elements it yields, in order, and the
      random state left behind.  A dataset is re-iterated once per epoch. *)
Definition Dataset : Type := RNG → list A * RNG.

  (** [tf.data.Dataset.from_tensor_slices(x)]: the rows of [x], in order. *)
Definition from_tensor_slices (x : list A) : Dataset := λ g, (x, g).

  (** The input is exhausted: draw from the buffer until it is empty. *)
Fixpoint shuffle_drain (fuel : nat) (buffer : list A) (g : RNG) : list A * RNG :=
    match fuel with
    | O => (buffer, g)
    | S fuel' =>
        let '(i, g1) := rand_below g (length buffer) in
        match buffer !! i with
        | Some y =>
            let '(out, g2) := shuffle_drain fuel' (delete i buffer) g1 in
            (y :: out, g2)
        | None => (buffer, g1)
        end
    end.

  (** The buffer is full: emit a random slot and refill it with the next
      input element.  A draw outside the buffer (impossible for a uniform
      draw on a non-empty buffer) passes the element through. *)
Fixpoint shuffle_stream (input buffer : list A) (g : RNG) : list A * RNG :=
    match input with
    | [] => shuffle_drain (length buffer) buffer g
    | x :: input' =>
        let '(i, g1) := rand_below g (length buffer) in
        match buffer !! i with
        | Some y =>
            let '(out, g2) := shuffle_stream input' (<[i:=x]> buffer) g1 in
            (y :: out, g2)
        | None =>
            let '(out, g2) := shuffle_stream input' buffer g1 in
            (x :: out, g2)
        end
    end.

  (** [ds.shuffle(buffer_size)] *)
Definition shuffle (buffer_size : nat) (ds : Dataset) : Dataset :=
    λ g, let '(l, g1) := ds g in
         shuffle_stream (drop buffer_size l) (take buffer_size l) g1.

  (** Batching: [cur] is the batch being filled. *)
Fixpoint batch_stream (batch_size : nat) (drop_remainder : bool)
      (cur input : list A) : list (list A) :=
    match input with
    | [] =>
        match cur with
        | [] => []
        | _ :: _ => if drop_remainder then [] else [cur]
        end
    | x :: input' =>
        let cur' := cur ++ [x] in
        if length cur' =? batch_size
        then cur' :: batch_stream batch_size drop_remainder [] input'
        else batch_stream batch_size drop_remainder cur' input'
    end.

  (** The partial batch left when the input ends. *)
Fixpoint batch_remainder (batch_size : nat) (cur input : list A) : list A :=
    match input with
    | [] => cur
    | x :: input' =>
        let cur' := cur ++ [x] in
        if length cur' =? batch_size
        then batch_remainder batch_size [] input'
        else batch_remainder batch_size cur' input'
    end.

End Pipeline.

Section Combinators.
Context `{Random} {A : Type}.

  (** [ds.batch(batch_size, drop_remainder=...)] *)
Definition batch (batch_size : nat) (drop_remainder : bool)
      (ds : Dataset (A:=A)) : Dataset (A:=list A) :=
    λ g, let '(l, g1) := ds g in
         (batch_stream batch_size drop_remainder [] l, g1).

  (** [ds.prefetch(n)] overlaps producer and consumer; the elements and
      their order are those of [ds]. *)
Definition prefetch {B : Type} (n : nat) (ds : Dataset (A:=B)) : Dataset (A:=B) := ds.

End Combinators.
End Data.

(** [batch_size = 32] and [num_features = 100] *)
Definition batch_size : nat := 32.
Definition num_features : nat := 100.

(** [dataset = tf.data.Dataset.from_tensor_slices(x).shuffle(1000)]
    [dataset = dataset.batch(batch_size, drop_remainder=True).prefetch(1)] *)
Definition dataset `{Random} {A : Type} (x : list A) : Data.Dataset (A:=list A) :=
  let dataset := Data.shuffle 1000 (Data.from_tensor_slices x) in
  Data.prefetch 1 (Data.batch batch_size true dataset).

(** ** Task 4 and Task 5: the networks as layer lists

    The script builds both networks from stock Keras layers.  What the
    script fixes is the layer list and its hyper-parameters; the model
    below follows Keras' shape inference for those layers (batch axis
    first, channels last). *)

Module Keras.

Inductive activation := Linear | Selu | Tanh | Sigmoid.
Inductive padding := Same | Valid.

Inductive layer :=
  | Dense (units : nat) (act : activation)
  | Reshape (target_shape : list nat)
  | BatchNormalization
  | Conv2DTranspose (filters : nat) (kernel_size strides : nat * nat)
      (pad : padding) (act : activation)
  | Conv2D (filters : nat) (kernel_size strides : nat * nat)
      (pad : padding) (act : activation)
  | LeakyReLU (alpha : Q)
  | Dropout (rate : Q)
  | Flatten.

  (** A [Sequential] model: the declared per-example input shape of its
      first layer and the layers in order. *)
Record Sequential := {
    input_shape : list nat;
    layers : list layer;
  }.

Definition prod_list (l : list nat) : nat := foldr Nat.mul 1 l.

  (** Output length of a convolution along one axis. *)
Definition conv_output_length (len k stride : nat) (pad : padding) : nat :=
    match pad with
    | Same => (len + stride - 1) / stride
    | Valid => (len - k + stride) / stride
    end.

  (** Output length of a transposed convolution along one axis. *)
Definition deconv_output_length (len k stride : nat) (pad : padding) : nat :=
    match pad with
    | Same => len * stride
    | Valid => len * stride + (k - stride)
    end.

  (** Shape inference of one layer on a full shape (batch axis included);
      [None] is a shape error. *)
Definition compute_output_shape (l : layer) (s : list nat) : option (list nat) :=
    match l, s with
    | Dense units _, [n; _] => Some [n; units]   (* rank two, as used here *)
    | Reshape target, n :: rest =>
        if prod_list rest =? prod_list target then Some (n :: target) else None
    | BatchNormalization, _ => Some s
    | Conv2DTranspose f (kh, kw) (sh, sw) pad _, [n; h; w; _] =>
        Some [n; deconv_output_length h kh sh pad; deconv_output_length w kw sw pad; f]
    | Conv2D f (kh, kw) (sh, sw) pad _, [n; h; w; _] =>
        Some [n; conv_output_length h kh sh pad; conv_output_length w kw sw pad; f]
    | LeakyReLU _, _ => Some s
    | Dropout _, _ => Some s
    | Flatten, n :: rest => Some [n; prod_list rest]
    | _, _ => None
    end.

  (** The shape of [model(x)] for an input of full shape [s]: the input
      must match the declared input shape past its batch axis. *)
Definition output_shape (m : Sequential) (s : list nat) : option (list nat) :=
    match s with
    | n :: per_example =>
        if decide (per_example = input_shape m)
        then foldl (λ acc l, acc ≫= compute_output_shape l) (Some s) (layers m)
        else None
    | [] => None
    end.

  (** The activation of the model's last layer. *)
Definition output_activation (m : Sequential) : option activation :=
    match last (layers m) with
    | Some (Dense _ a) | Some (Conv2D _ _ _ _ a) | Some (Conv2DTranspose _ _ _ _ a) => Some a
    | _ => None
    end.

  (** The activation functions, over the reals. *)
Definition selu_scale : R := 1.05070098%R.
Definition selu_alpha : R := 1.67326324%R.

Definition apply_activation (a : activation) (x : R) : R :=
    match a with
    | Linear => x
    | Selu =>
        if Rlt_dec 0 x then (selu_scale * x)%R
        else (selu_scale * selu_alpha * (exp x - 1))%R
    | Tanh => tanh x
    | Sigmoid => (1 / (1 + exp (- x)))%R
    end.

End Keras.

Import Keras.

(** [generator = keras.models.Sequential([...])] *)
Definition generator : Sequential := {|
  input_shape := [num_features];
  layers := [
    Dense (7 * 7 * 128) Linear;
    Reshape [7; 7; 128];
    BatchNormalization;
    Conv2DTranspose 64 (5, 5) (2, 2) Same Selu;
    BatchNormalization;
    Conv2DTranspose 1 (5, 5) (2, 2) Same Tanh
  ]
|}.

(** [discriminator = keras.models.Sequential([...])] *)
Definition discriminator : Sequential := {|
  input_shape := [28; 28; 1];
  layers := [
    Conv2D 64 (5, 5) (2, 2) Same Linear;
    LeakyReLU 0.2;
    Dropout 0.3;
    Conv2D 128 (5, 5) (2, 2) Same Linear;
    LeakyReLU 0.2;
    Dropout 0.3;
    Flatten;
    Dense 1 Sigmoid
  ]
|}.

(** [gan = keras.models.Sequential([generator, discriminator])]: the
    stacked model's shape is the composition of the two. *)
Definition gan_output_shape (s : list nat) : option (list nat) :=
  output_shape generator s ≫= output_shape discriminator.

(** ** The numerical framework

    [Vars] holds everything the framework updates while training: layer
    weights, batch-normalisation statistics and the state of the two
    [rmsprop] optimizers.  The boolean of a forward pass is Keras'
    [training] flag; the boolean of a fit step is the value of
    [discriminator.trainable] at the call.  Argument validation inside
    the framework is not modelled: a framework call always returns. *)

Definition has_shape4 (s : list nat) (t : list image) : Prop :=
  match s with
  | [n; h; w; c] => length t = n ∧ Forall (has_shape3 h w c) t
  | _ => False
  end.

Class Backend := {
  Vars : Type;
  forward_generator : Vars → bool → list row → list image;
  forward_discriminator : Vars → bool → list image → list row;
  fit_discriminator : Vars → bool → list image → list row → Vars;
  fit_gan : Vars → bool → list row → list row → Vars;
  (** the generator's output has the shape Keras infers from its layers *)
  forward_generator_shape : ∀ w t x s,
    output_shape generator [length x; num_features] = Some s →
    has_shape4 s (forward_generator w t x);
}.

(** ** The interpreter state and its effects *)

(** One drawn subplot: [(nrows, ncols, index)] and the array shown. *)
Definition panel : Type := (nat * nat * nat) * plane.

Section Runtime.
Context `{Random} `{Backend}.

Inductive event :=
| EvPrint (s : string)                       (* print(...) of text *)
| EvPrintTensor (t : list row)               (* print(decision) *)
| EvClearOutput                              (* display.clear_output(wait=True) *)
| EvCallGenerator (training : option bool) (x : list row)
| EvCallDiscriminator (training : option bool) (x : list image)
| EvDiscTrain (trainable_now : bool) (X : list image) (y : list row)
| EvGanTrain (trainable_now : bool) (noise : list row) (y : list row)
| EvSavefig (fname : string) (fig : list panel)
| EvShow (fig : list panel)                  (* plt.show() *)
| EvPlotUtilsShow (images : list image) (n_cols : nat).

Record state := mkState {
  vars : Vars;                      (* the models' variables *)
  trainable : bool;                 (* discriminator.trainable *)
  rng : RNG;                        (* the global tf.random generator *)
  data_rng : RNG;                   (* the shuffle's generator *)
  seed : list row;                  (* the module-level global [seed] *)
  axes : nat * nat * nat;           (* pyplot's current subplot *)
  figure : list panel;              (* pyplot's current figure *)
  files : gmap string (list panel); (* image files on disk *)
  log : list event;                 (* framework calls so far, oldest first *)
}.

Definition with_vars (w : Vars) (s : state) : state :=
  mkState w (trainable s) (rng s) (data_rng s) (seed s) (axes s) (figure s) (files s) (log s).
Definition with_trainable (b : bool) (s : state) : state :=
  mkState (vars s) b (rng s) (data_rng s) (seed s) (axes s) (figure s) (files s) (log s).
Definition with_rng (g : RNG) (s : state) : state :=
  mkState (vars s) (trainable s) g (data_rng s) (seed s) (axes s) (figure s) (files s) (log s).
Definition with_data_rng (g : RNG) (s : state) : state :=
  mkState (vars s) (trainable s) (rng s) g (seed s) (axes s) (figure s) (files s) (log s).
Definition with_seed (x : list row) (s : state) : state :=
  mkState (vars s) (trainable s) (rng s) (data_rng s) x (axes s) (figure s) (files s) (log s).
Definition with_axes (a : nat * nat * nat) (s : state) : state :=
  mkState (vars s) (trainable s) (rng s) (data_rng s) (seed s) a (figure s) (files s) (log s).
Definition with_figure (f : list panel) (s : state) : state :=
  mkState (vars s) (trainable s) (rng s) (data_rng s) (seed s) (axes s) f (files s) (log s).
Definition with_files (m : gmap string (list panel)) (s : state) : state :=
  mkState (vars s) (trainable s) (rng s) (data_rng s) (seed s) (axes s) (figure s) m (log s).
Definition emit (e : event) (s : state) : state :=
  mkState (vars s) (trainable s) (rng s) (data_rng s) (seed s) (axes s) (figure s) (files s)
    (log s ++ [e]).

(** Python exceptions the script can meet in its own statements. *)
Inductive exn :=
| UnboundLocalError (name : string)      (* a local read before assignment *)
| IndexError (index size : nat)          (* numpy: x[i] with i out of range *)
| InvalidArgumentError (index size : nat). (* tf: slice index out of bounds *)

Inductive outcome (A : Type) :=
| Ok (a : A) (s : state)
| Raise (e : exn) (s : state).
Arguments Ok {A} a s.
Arguments Raise {A} e s.

Definition M (A : Type) : Type := state → outcome A.

Definition final_state {A} (r : outcome A) : state :=
  match r with Ok _ s | Raise _ s => s end.

Definition is_ok {A} (r : outcome A) : bool :=
  match r with Ok _ _ => true | Raise _ _ => false end.

#[export] Instance M_ret : MRet M := λ A a s, Ok a s.
#[export] Instance M_bind : MBind M := λ A B f m s,
  match m s with
  | Ok a s1 => f a s1
  | Raise e s1 => Raise e s1
  end.

Definition raise {A} (e : exn) : M A := λ s, Raise e s.
Definition gets {A} (f : state → A) : M A := λ s, Ok (f s) s.
Definition modify (f : state → state) : M unit := λ s, Ok tt (f s).

(** [for x in l: body], with the loop variable as Python leaves it: bound
    to the last element once the loop has run, untouched otherwise. *)
Fixpoint for_in {A} (l : list A) (body : A → M unit) (var : option A) : M (option A) :=
  match l with
  | [] => mret var
  | x :: l' => body x;; for_in l' body (Some x)
  end.

(** Reading a local variable of the enclosing function. *)
Definition read_local {A} (name : string) (var : option A) : M A :=
  match var with
  | Some v => mret v
  | None => raise (UnboundLocalError name)
  end.

(** *** Framework calls *)

Fixpoint normal_row (d : nat) (g : RNG) : row * RNG :=
  match d with
  | O => ([], g)
  | S d' =>
      let '(v, g1) := rand_normal g in
      let '(r, g2) := normal_row d' g1 in
      (v :: r, g2)
  end.

Fixpoint normal_rows (n d : nat) (g : RNG) : list row * RNG :=
  match n with
  | O => ([], g)
  | S n' =>
      let '(r, g1) := normal_row d g in
      let '(rs, g2) := normal_rows n' d g1 in
      (r :: rs, g2)
  end.

(** [tf.random.normal(shape=[n, d])] *)
Definition tf_random_normal (n d : nat) : M (list row) := λ s,
  let '(t, g) := normal_rows n d (rng s) in Ok t (with_rng g s).

(** [generator(x)] and [generator(x, training=...)]: outside [fit], an
    omitted [training] argument means inference. *)
Definition call_generator (training : option bool) (x : list row) : M (list image) := λ s,
  Ok (forward_generator (vars s) (default false training) x)
     (emit (EvCallGenerator training x) s).

(** [discriminator(x)] *)
Definition call_discriminator (training : option bool) (x : list image) : M (list row) := λ s,
  Ok (forward_discriminator (vars s) (default false training) x)
     (emit (EvCallDiscriminator training x) s).

(** [discriminator.trainable = b] *)
Definition set_trainable (b : bool) : M unit := modify (with_trainable b).

(** [discriminator.train_on_batch(X, y)] *)
Definition discriminator_train_on_batch (X : list image) (y : list row) : M unit := λ s,
  Ok tt (emit (EvDiscTrain (trainable s) X y)
           (with_vars (fit_discriminator (vars s) (trainable s) X y) s)).

(** [gan.train_on_batch(noise, y)] *)
Definition gan_train_on_batch (noise : list row) (y : list row) : M unit := λ s,
  Ok tt (emit (EvGanTrain (trainable s) noise y)
           (with_vars (fit_gan (vars s) (trainable s) noise y) s)).

(** [for X_batch in dataset]: one pass over the pipeline. *)
Definition iterate {A} (ds : Data.Dataset (A:=A)) : M (list A) := λ s,
  let '(l, g) := ds (data_rng s) in Ok l (with_data_rng g s).

Definition print (text : string) : M unit := modify (emit (EvPrint text)).
Definition print_tensor (t : list row) : M unit := modify (emit (EvPrintTensor t)).
Definition display_clear_output : M unit := modify (emit EvClearOutput).

(** *** pyplot *)

(** [plt.figure(figsize=...)]: a new, empty current figure. *)
Definition plt_figure : M unit := modify (with_figure []).
(** [plt.subplot(nrows, ncols, index)] *)
Definition plt_subplot (nrows ncols index : nat) : M unit :=
  modify (with_axes (nrows, ncols, index)).
(** [plt.imshow(data, cmap=...)]: draws into the current subplot. *)
Definition plt_imshow (data : plane) : M unit :=
  modify (λ s, with_figure (figure s ++ [(axes s, data)]) s).
(** [plt.xticks([])], [plt.yticks([])], [plt.grid(False)], [plt.axis('off')]:
    decoration of the current subplot, no data. *)
Definition plt_decorate : M unit := mret tt.
(** [plt.savefig(fname)]: the only statement of the script that writes a file. *)
Definition plt_savefig (fname : string) : M unit := λ s,
  Ok tt (emit (EvSavefig fname (figure s)) (with_files (<[fname := figure s]> (files s)) s)).
(** [plt.show()] *)
Definition plt_show : M unit := λ s, Ok tt (emit (EvShow (figure s)) s).

(** Modelled from the spec: [plot_utils.show], whose module is not part of
    the sources; the spec lists no persistence besides rendering sample
    images, so the call is taken as display only. *)
Definition plot_utils_show (images : list image) (n_cols : nat) : M unit :=
  modify (emit (EvPlotUtilsShow images n_cols)).

(** *** Indexing *)

(** [img[:, :, c]] on the nested list of one example. *)
Definition slice_channel (c : nat) (img : image) : option plane :=
  mapM (mapM (λ px : list scalar, px !! c)) img.

(** [predictions[i, :, :, c]] on a tensor of rank four. *)
Definition tensor_slice (predictions : list image) (i c : nat) : M plane :=
  match predictions !! i with
  | None => raise (InvalidArgumentError i (length predictions))
  | Some img =>
      match slice_channel c img with
      | None => raise (InvalidArgumentError c 0)
      | Some p => mret p
      end
  end.

(** [x[i]] on a numpy array. *)
Definition numpy_index {A} (x : list A) (i : nat) : M A :=
  match x !! i with
  | None => raise (IndexError i (length x))
  | Some v => mret v
  end.

(** *** String formatting *)

Fixpoint zeros (n : nat) : string :=
  match n with O => EmptyString | S n' => "0" +:+ zeros n' end.

(** ['{:04d}'.format(n)]: decimal, zero-padded on the left to width four. *)
Definition format_04d (n : nat) : string :=
  let digits := pretty n in
  zeros (4 - String.length digits) +:+ digits.

Definition image_file_name (epoch : nat) : string :=
  "image_at_epoch_" +:+ format_04d epoch +:+ ".png".

(** ** Task 7: the training procedure *)

(** The body of [for i in range(25)] in [generate_and_save_images]. *)
Definition draw_prediction (predictions : list image) (i : nat) : M unit :=
  plt_subplot 5 5 (i + 1);;
  img ← tensor_slice predictions i 0;
  plt_imshow (map (map Preprocess.denormalize) img);;
  plt_decorate.

(** [generate_and_save_images(model, epoch, test_input)] *)
Definition generate_and_save_images
    (model : option bool → list row → M (list image))
    (epoch : nat) (test_input : list row) : M unit :=
  predictions ← model (Some false) test_input;
  plt_figure;;
  for_in (seq 0 25) (draw_prediction predictions) None;;
  plt_savefig (image_file_name epoch);;
  plt_show.

(** The body of [for X_batch in dataset]. *)
Definition train_step (batch_size num_features : nat) (X_batch : list image) : M unit :=
  noise ← tf_random_normal batch_size num_features;
  generated_images ← call_generator None noise;
  let X_fake_and_real := generated_images ++ X_batch in
  let y1 := replicate batch_size [0%Q] ++ replicate batch_size [1%Q] in
  set_trainable true;;
  discriminator_train_on_batch X_fake_and_real y1;;
  let y2 := replicate batch_size [1%Q] in
  set_trainable false;;
  gan_train_on_batch noise y2.

(** The body of [for epoch in tqdm(range(epochs))]; the progress bar of
    [tqdm] is not modelled. *)
Definition train_epoch (dataset : Data.Dataset (A:=list image))
    (batch_size num_features epochs epoch : nat) : M unit :=
  print ("Epochs " +:+ pretty (epoch + 1) +:+ "/" +:+ pretty epochs);;
  batches ← iterate dataset;
  for_in batches (train_step batch_size num_features) None;;
  display_clear_output;;
  seed ← gets seed;
  generate_and_save_images call_generator (epoch + 1) seed.

(** [train_dcgan(gan, dataset, batch_size, num_features, epochs=5)].  The
    argument [gan] is the stacked model whose two layers are the generator
    and the discriminator; their variables live in the state, so the
    unpacking [generator, discriminator = gan.layers] has no counterpart. *)
Definition train_dcgan (dataset : Data.Dataset (A:=list image))
    (batch_size num_features epochs : nat) : M unit :=
  epoch ← for_in (seq 0 epochs) (train_epoch dataset batch_size num_features epochs) None;
  display_clear_output;;
  epoch ← read_local "epoch" epoch;
  seed ← gets seed;
  generate_and_save_images call_generator (epoch + 1) seed.

(** ** The script, top to bottom

    [raw_train] is what [fashion_mnist.load_data()] returns as [x_train]. *)
Definition main (tf_version : string) (raw_train : list Preprocess.raw_image) : M unit :=
  print ("Tensorflow version: " +:+ tf_version);;
  (* Task 2 *)
  let x_train := Preprocess.x_train raw_train in
  plt_figure;;
  for_in (seq 0 25) (λ i,
    plt_subplot 5 5 (i + 1);;
    plt_decorate;;
    img ← numpy_index x_train i;
    plt_imshow img) None;;
  plt_show;;
  (* Task 3: this first pipeline is built and never iterated *)
  let dataset_of_task_3 := dataset x_train in
  (* Task 4 *)
  noise ← tf_random_normal 1 num_features;
  generated_image ← call_generator (Some false) noise;
  plot_utils_show generated_image 1;;
  (* Task 5 *)
  decision ← call_discriminator None generated_image;
  print_tensor decision;;
  (* Task 6 *)
  set_trainable false;;
  (* Task 7 *)
  seed ← tf_random_normal batch_size 100;
  modify (with_seed seed);;
  (* Task 8 *)
  let x_train_dcgan := Preprocess.x_train_dcgan x_train in
  train_dcgan (dataset x_train_dcgan) batch_size num_features 1;;
  (* Task 9 *)
  noise ← tf_random_normal batch_size num_features;
  generated_images ← call_generator None noise;
  plot_utils_show generated_images 8.

End Runtime.

Arguments Ok {_ _ A} a s.
Arguments Raise {_ _ A} e s.

(** ** Reading a log

    The shape of what a run logs, piece by piece: one training step, one
    call of [generate_and_save_images], one epoch, a whole run. *)

Section Traces.
Context `{Random} `{Backend}.

(** The subplot drawn for prediction [i]. *)
Definition sample_panel (predictions : list image) (i : nat) : option panel :=
  img ← predictions !! i;
  p ← slice_channel 0 img;
  Some ((5, 5, i + 1), map (map Preprocess.denormalize) p).

(** The figure of one rendering: a 5 by 5 grid of the first 25 predictions. *)
Definition sample_figure (predictions : list image) : option (list panel) :=
  mapM (sample_panel predictions) (seq 0 25).

Definition step_events (batch_size : nat) (w : Vars) (noise : list row)
    (X_batch : list image) : list event :=
  [ EvCallGenerator None noise;
    EvDiscTrain true (forward_generator w false noise ++ X_batch)
      (replicate batch_size [0%Q] ++ replicate batch_size [1%Q]);
    EvGanTrain false noise (replicate batch_size [1%Q]) ].

Definition render_events (epoch : nat) (test_input : list row) (fig : list panel) : list event :=
  [ EvCallGenerator (Some false) test_input;
    EvSavefig (image_file_name epoch) fig;
    EvShow fig ].

(** [l] is the log of one training step on [X_batch]. *)
Definition step_trace (batch_size num_features : nat) (X_batch : list image)
    (l : list event) : Prop :=
  ∃ w noise,
    length noise = batch_size ∧
    Forall (λ r : row, length r = num_features) noise ∧
    l = step_events batch_size w noise X_batch.

(** [l] is the log of one rendering of the generator with variables [w]. *)
Definition render_trace (w : Vars) (epoch : nat) (test_input : list row)
    (l : list event) : Prop :=
  ∃ fig,
    sample_figure (forward_generator w false test_input) = Some fig ∧
    l = render_events epoch test_input fig.

(** [l] is the log of the training steps of one pass over [dataset]. *)
Definition pass_trace (dataset : Data.Dataset (A:=list image))
    (batch_size num_features : nat) (l : list event) : Prop :=
  ∃ g steps,
    Forall2 (step_trace batch_size num_features) (dataset g).1 steps ∧
    l = concat steps.

(** [l] is the log of the epoch with zero-based index [epoch], which
    ends with the generator's variables at [w]. *)
Definition epoch_trace (dataset : Data.Dataset (A:=list image))
    (batch_size num_features epochs : nat) (sd : list row)
    (epoch : nat) (w : Vars) (l : list event) : Prop :=
  ∃ training rendering,
    pass_trace dataset batch_size num_features training ∧
    render_trace w (epoch + 1) sd rendering ∧
    l = EvPrint ("Epochs " +:+ pretty (epoch + 1) +:+ "/" +:+ pretty epochs)
          :: training ++ EvClearOutput :: rendering.

(** [l] is the log of a whole run of [epochs] epochs. *)
Definition run_trace (dataset : Data.Dataset (A:=list image))
    (batch_size num_features epochs : nat) (sd : list row) (l : list event) : Prop :=
  ∃ (eps : list (Vars * list event)) w rendering,
    Forall2 (λ epoch p, epoch_trace dataset batch_size num_features epochs sd epoch p.1 p.2)
      (seq 0 epochs) eps ∧
    last eps.*1 = Some w ∧
    render_trace w epochs sd rendering ∧
    l = concat eps.*2 ++ EvClearOutput :: rendering.

(** The two kinds of optimizer step. *)
Inductive update := DiscriminatorUpdate | GeneratorUpdate.

Definition update_of (e : event) : option update :=
  match e with
  | EvDiscTrain _ _ _ => Some DiscriminatorUpdate
  | EvGanTrain _ _ _ => Some GeneratorUpdate
  | _ => None
  end.

#[export] Instance update_eq_dec : EqDecision update.
Proof. solve_decision. Defined.

(** The optimizer steps of a log, in order. *)
Definition updates (l : list event) : list update := omap update_of l.

(** Scanning the log: every discriminator step has a generator step as
    its very next event, and no generator step stands alone. *)
Fixpoint steps_adjacent (l : list event) : Prop :=
  match l with
  | [] => True
  | d :: l' =>
      match update_of d with
      | None => steps_adjacent l'
      | Some GeneratorUpdate => False
      | Some DiscriminatorUpdate =>
          match l' with
          | g :: l'' => update_of g = Some GeneratorUpdate ∧ steps_adjacent l''
          | [] => False
          end
      end
  end.

(** [d] and [g] are the two fit calls of one iteration over a batch of
    [dataset]: the discriminator is fit on [batch_size] generated images
    labelled 0 followed by the [batch_size] images of the batch labelled
    1, then the stacked model is fit on the same noise, labelled 1. *)
Definition adversarial_step (dataset : Data.Dataset (A:=list image))
    (batch_size : nat) (d g : event) : Prop :=
  ∃ w noise X_batch rg,
    let fake := forward_generator w false noise in
    X_batch ∈ (dataset rg).1 ∧
    length noise = batch_size ∧ length fake = batch_size ∧
    length X_batch = batch_size ∧
    d = EvDiscTrain true (fake ++ X_batch)
          (replicate batch_size [0%Q] ++ replicate batch_size [1%Q]) ∧
    zip (fake ++ X_batch) (replicate batch_size [0%Q] ++ replicate batch_size [1%Q])
      = zip fake (replicate batch_size [0%Q]) ++ zip X_batch (replicate batch_size [1%Q]) ∧
    g = EvGanTrain false noise (replicate batch_size [1%Q]).

Definition is_train (e : event) : bool :=
  match e with EvDiscTrain _ _ _ | EvGanTrain _ _ _ => true | _ => false end.

(** The log splits into consecutive pairs, each related by [P]. *)
Fixpoint paired (P : event → event → Prop) (l : list event) : Prop :=
  match l with
  | [] => True
  | d :: g :: l' => P d g ∧ paired P l'
  | [_] => False
  end.

(** The value of [discriminator.trainable] a fit step must see. *)
Definition flag_ok (e : event) : Prop :=
  match e with
  | EvDiscTrain b _ _ => b = true
  | EvGanTrain b _ _ => b = false
  | _ => True
  end.

(** The files a log writes, oldest first. *)
Definition saved_of (e : event) : option (string * list panel) :=
  match e with EvSavefig name fig => Some (name, fig) | _ => None end.

Definition saved (l : list event) : list (string * list panel) := omap saved_of l.

(** An event that writes a file writes a sample image. *)
Definition writes_image (e : event) : Prop :=
  ∀ name fig, saved_of e = Some (name, fig) → ∃ epoch, name = image_file_name epoch.

(** The disk after a list of writes. *)
Definition write_all (m : gmap string (list panel)) (ws : list (string * list panel)) :
    gmap string (list panel) :=
  foldl (λ m p, <[p.1 := p.2]> m) m ws.

(** The disk after the writes of a log. *)
Definition replay (l : list event) (m : gmap string (list panel)) : gmap string (list panel) :=
  write_all m (saved l).

(** An event that is part of a rendering. *)
Definition is_render (e : event) : bool :=
  match e with
  | EvCallGenerator (Some false) _ | EvSavefig _ _ | EvShow _ => true
  | _ => false
  end.

(** [c] is the log of an epoch that ends with the rendering for [epoch]:
    events that are no part of a rendering, then the cleared output and
    the rendering itself. *)
Definition epoch_then_render (sd : list row) (epoch : nat) (c : list event) : Prop :=
  ∃ w before rendering,
    c = before ++ EvClearOutput :: rendering ∧
    filter is_render before = [] ∧
    render_trace w epoch sd rendering.

(** [m] keeps [I], however it ends. *)
Definition preserves {A} (I : state → Prop) (m : M A) : Prop :=
  ∀ s, I s → I (final_state (m s)).

(** The log of [s] is that of [s0] followed by events that all satisfy [P]. *)
Definition extends (P : event → Prop) (s0 s : state) : Prop :=
  ∃ new, log s = log s0 ++ new ∧ Forall P new.

(** What every statement of the script keeps, from a state [s0] on: fit
    calls see the right value of [discriminator.trainable], a flag that was
    [False] is [False] again, and the only files touched are sample images. *)
Definition kept (s0 s : state) : Prop :=
  extends (λ e, flag_ok e ∧ writes_image e) s0 s ∧
  (trainable s0 = false → trainable s = false) ∧
  (∀ name, (∀ epoch, name ≠ image_file_name epoch) → files s !! name = files s0 !! name).

(** Everything but pyplot's own state is as before. *)
Definition same_outside_pyplot (s s' : state) : Prop :=
  vars s' = vars s ∧ trainable s' = trainable s ∧ rng s' = rng s ∧
  data_rng s' = data_rng s ∧ seed s' = seed s ∧ files s' = files s ∧ log s' = log s.

End Traces.

(** ** Reading a file name back

    The inverse of the naming of [generate_and_save_images]: the number
    spelled after the fixed prefix of a sample image's name. *)

(** The value of a decimal digit: the characters 48 to 57. *)
Definition digit_value (c : Ascii.ascii) : option N :=
  let code := Ascii.N_of_ascii c in
  if ((48 <=? code) && (code <=? 57))%N then Some (code - 48)%N else None.

(** The value of the leading decimal digits of [s], after [acc]. *)
Fixpoint decimal_prefix (acc : N) (s : string) : N :=
  match s with
  | EmptyString => acc
  | String c s' =>
      match digit_value c with
      | Some d => decimal_prefix (acc * 10 + d) s'
      | None => acc
      end
  end.

Fixpoint strip_prefix (p s : string) : option string :=
  match p, s with
  | EmptyString, _ => Some s
  | String a p', String b s' => if Ascii.eqb a b then strip_prefix p' s' else None
  | String _ _, EmptyString => None
  end.

Definition epoch_of_file_name (name : string) : option nat :=
  rest ← strip_prefix "image_at_epoch_" name;
  Some (N.to_nat (decimal_prefix 0 rest)).

(** ** A concrete framework

    A small, fully computable instance of the two interfaces: a counter as
    random state and a generator that paints every image black.  It shows
    the interfaces are inhabited and gives the closed examples below
    something to run on. *)

Module Reference.

Definition counter_random : Random := {|
  RNG := N;
  rand_below := λ g n, (N.to_nat (g `mod` N.of_nat n), N.succ g);
  rand_normal := λ g, (inject_Z (Z.of_N g), N.succ g);
|}.

Definition black_image : image := replicate 28 (replicate 28 [0%Q]).

Lemma black_images_shape (x : list row) (s : list nat) :
  output_shape generator [length x; num_features] = Some s →
  has_shape4 s (map (λ _, black_image) x).
Proof.
  intros [= <-]. split; [by rewrite length_map|].
  apply Forall_forall. intros img [r [-> _]]%list_elem_of_fmap.
  split; [done|]. apply Forall_forall. intros line ->%elem_of_replicate_inv.
  split; [done|]. apply Forall_forall. by intros px ->%elem_of_replicate_inv.
Qed.

Definition constant_backend : Backend := {|
  Vars := nat;
  forward_generator := λ _ _ x, map (λ _, black_image) x;
  forward_discriminator := λ _ _ X, map (λ _, [0.5%Q]) X;
  fit_discriminator := λ w _ _ _, S w;
  fit_gan := λ w _ _ _, S w;
  forward_generator_shape := λ _ _, black_images_shape;
|}.

(** A start state: nothing on disk, nothing logged. *)
Definition start : @state counter_random constant_backend :=
  @mkState counter_random constant_backend 0 true 0%N 0%N [] (0, 0, 0) [] ∅ [].

(** The state the script is in when it calls [train_dcgan]: the flag
    cleared by the compile step, a seed of 32 rows of 100 entries. *)
Definition ready : @state counter_random constant_backend :=
  @mkState counter_random constant_backend 0 false 0%N 0%N
    (replicate 32 (replicate 100 0%Q)) (0, 0, 0) [] ∅ [].

(** A training set of 64 images, and the script's pipeline over it. *)
Definition loader : @Data.Dataset counter_random (list image) :=
  @dataset counter_random image (replicate 64 black_image).

(** A data set of [n] distinct entries. *)
Definition numbered (n : Z) : list Z := seqZ 0 n.

End Reference.

(* ================================================================= *)
(** * Part II: properties *)
(* ================================================================= *)

(** ** Preprocessing *)

(** C7: over the rationals, for a raw pixel value [p] in [[0, 255]] the
    preprocessed value [p / 255 * 2 - 1] lies in [[-1, 1]], and the display
    denormalization [x * 127.5 + 127.5] maps it back to [p]. *)
Theorem denormalize_inverts_preprocessing (p : Q) :
  (0 <= p <= 255)%Q →
  (-1 <= Preprocess.to_tanh_range (Preprocess.to_unit p) <= 1)%Q ∧
  (Preprocess.denormalize (Preprocess.to_tanh_range (Preprocess.to_unit p)) == p)%Q.
Proof.
  unfold Preprocess.denormalize, Preprocess.to_tanh_range, Preprocess.to_unit.
  intros [Hlo Hhi].
  assert (E : (p / 255 == p * (1 # 255))%Q) by field.
  split; [split|].
  - rewrite E. Lqa.lra.
  - rewrite E. Lqa.lra.
  - field.
Qed.

Lemma denormalize_inverts_preprocessing_at_128 :
  ((0 <= 128 <= 255)%Q) ∧
  ((-1 <= Preprocess.to_tanh_range (Preprocess.to_unit 128) <= 1)%Q ∧
   (Preprocess.denormalize (Preprocess.to_tanh_range (Preprocess.to_unit 128)) == 128)%Q).
Proof.
  assert (Hp : (0 <= 128 <= 255)%Q) by (split; discriminate).
  split; [exact Hp | exact (denormalize_inverts_preprocessing 128 Hp)].
Defined.

(** ** The input pipeline *)

Section DataFacts.
Context `{Random} {A : Type}.
Implicit Types (x input buffer cur : list A) (g : RNG).

Lemma insert_swap_Permutation buffer i (x y : A) :
  buffer !! i = Some y → y :: <[i:=x]> buffer ≡ₚ x :: buffer.
Proof.
  intros Hi.
  rewrite insert_take_drop by (by eapply lookup_lt_Some).
  rewrite <- (take_drop_middle buffer i y Hi) at 3.
  rewrite <- !Permutation_middle. apply perm_swap.
Qed.

Lemma shuffle_drain_Permutation fuel buffer g :
  (Data.shuffle_drain fuel buffer g).1 ≡ₚ buffer.
Proof.
  revert buffer g. induction fuel as [|fuel IH]; intros buffer g; simpl; [done|].
  destruct (rand_below g (length buffer)) as [i g1].
  destruct (buffer !! i) as [y|] eqn:Hi; [|done].
  specialize (IH (delete i buffer) g1).
  destruct (Data.shuffle_drain fuel (delete i buffer) g1) as [out g2]; simpl in *.
  by rewrite IH, <- delete_Permutation.
Qed.

Lemma shuffle_stream_Permutation input buffer g :
  (Data.shuffle_stream input buffer g).1 ≡ₚ buffer ++ input.
Proof.
  revert buffer g. induction input as [|x input IH]; intros buffer g; simpl.
  - by rewrite shuffle_drain_Permutation, app_nil_r.
  - destruct (rand_below g (length buffer)) as [i g1].
    destruct (buffer !! i) as [y|] eqn:Hi.
    + specialize (IH (<[i:=x]> buffer) g1).
      destruct (Data.shuffle_stream input (<[i:=x]> buffer) g1) as [out g2]; simpl in *.
      rewrite IH, app_comm_cons, (insert_swap_Permutation _ _ _ _ Hi).
      by rewrite <- Permutation_middle.
    + specialize (IH buffer g1).
      destruct (Data.shuffle_stream input buffer g1) as [out g2]; simpl in *.
      by rewrite IH, <- Permutation_middle.
Qed.

(** Shuffling reorders the rows and neither drops nor repeats one. *)
Lemma shuffle_Permutation n x g :
  (Data.shuffle n (Data.from_tensor_slices x) g).1 ≡ₚ x.
Proof.
  unfold Data.shuffle, Data.from_tensor_slices.
  by rewrite shuffle_stream_Permutation, take_drop.
Qed.

Lemma length_concat_full (n : nat) (l : list (list A)) :
  Forall (λ b, length b = n) l → length (concat l) = n * length l.
Proof.
  induction 1 as [|b l Hb _ IH]; simpl; [lia|].
  rewrite length_app, IH, Hb. lia.
Qed.

(** Every emitted batch is full. *)
Lemma batch_stream_full bs cur input :
  Forall (λ b, length b = bs) (Data.batch_stream bs true cur input).
Proof.
  revert cur. induction input as [|x input IH]; intros cur; simpl.
  - by destruct cur.
  - destruct (length (cur ++ [x]) =? bs) eqn:E; [|done].
    constructor; [by apply Nat.eqb_eq|done].
Qed.

(** The batches, followed by the partial batch, are the input. *)
Lemma batch_stream_split bs cur input :
  concat (Data.batch_stream bs true cur input) ++ Data.batch_remainder bs cur input
  = cur ++ input.
Proof.
  revert cur. induction input as [|x input IH]; intros cur; simpl.
  - destruct cur; by rewrite ?app_nil_r.
  - destruct (length (cur ++ [x]) =? bs); simpl.
    + by rewrite <- (assoc_L (++)), IH, <- (assoc_L (++)).
    + by rewrite IH, <- (assoc_L (++)).
Qed.

Lemma batch_stream_length bs cur input :
  length cur < bs →
  length (Data.batch_stream bs true cur input) = (length cur + length input) / bs.
Proof.
  revert cur. induction input as [|x input IH]; intros cur Hcur; simpl.
  - rewrite Nat.add_0_r, Nat.div_small by done. by destruct cur.
  - rewrite length_app; simpl.
    destruct (length cur + 1 =? bs) eqn:E.
    + apply Nat.eqb_eq in E. simpl. rewrite IH by (simpl; lia). simpl.
      replace (length cur + S (length input)) with (1 * bs + length input) by lia.
      rewrite Nat.div_add_l by lia. done.
    + apply Nat.eqb_neq in E. rewrite IH by (rewrite length_app; simpl; lia).
      rewrite length_app; simpl. f_equal. lia.
Qed.

Lemma batch_remainder_length bs cur input :
  length cur < bs →
  length (Data.batch_remainder bs cur input) = (length cur + length input) `mod` bs.
Proof.
  revert cur. induction input as [|x input IH]; intros cur Hcur; simpl.
  - by rewrite Nat.add_0_r, Nat.mod_small.
  - rewrite length_app; simpl.
    destruct (length cur + 1 =? bs) eqn:E.
    + apply Nat.eqb_eq in E. rewrite IH by (simpl; lia). simpl.
      replace (length cur + S (length input)) with (length input + 1 * bs) by lia.
      by rewrite Nat.Div0.mod_add.
    + apply Nat.eqb_neq in E. rewrite IH by (rewrite length_app; simpl; lia).
      rewrite length_app; simpl. f_equal. lia.
Qed.

(** What one pass over the script's pipeline yields. *)
Lemma dataset_unfold x g :
  (dataset x g).1 =
  Data.batch_stream batch_size true [] (Data.shuffle 1000 (Data.from_tensor_slices x) g).1.
Proof.
  unfold dataset, Data.prefetch, Data.batch.
  by destruct (Data.shuffle 1000 (Data.from_tensor_slices x) g).
Qed.

Lemma dataset_full x g : Forall (λ b, length b = batch_size) (dataset x g).1.
Proof. rewrite dataset_unfold. apply batch_stream_full. Qed.

Lemma dataset_length x g : length (dataset x g).1 = length x / batch_size.
Proof.
  rewrite dataset_unfold, batch_stream_length by (unfold batch_size; simpl; lia).
  simpl. by rewrite shuffle_Permutation.
Qed.

Lemma dataset_concat x g :
  concat (dataset x g).1 =
  take (batch_size * (length x / batch_size))
       (Data.shuffle 1000 (Data.from_tensor_slices x) g).1.
Proof.
  pose proof (dataset_length x g) as Hn. pose proof (dataset_full x g) as Hfull.
  rewrite dataset_unfold in *.
  set (shuffled := (Data.shuffle 1000 (Data.from_tensor_slices x) g).1) in *.
  pose proof (batch_stream_split batch_size [] shuffled) as Hsplit. simpl in Hsplit.
  rewrite <- Hsplit at 2.
  assert (Hlen : length (concat (Data.batch_stream batch_size true [] shuffled))
                 = batch_size * (length x / batch_size)).
  { rewrite <- Hn. by apply length_concat_full. }
  by rewrite take_app_length'.
Qed.

Lemma dataset_elem_of x g b r : b ∈ (dataset x g).1 → r ∈ b → r ∈ x.
Proof.
  intros Hb Hr.
  rewrite <- (shuffle_Permutation 1000 x g).
  eapply subseteq_take. rewrite <- dataset_concat.
  apply list_elem_of_In, in_concat. exists b.
  split; by apply list_elem_of_In.
Qed.

(** When the batch size divides the number of rows, an epoch covers all. *)
Lemma dataset_whole x g :
  length x `mod` batch_size = 0 → concat (dataset x g).1 ≡ₚ x.
Proof.
  intros Hmod. rewrite dataset_concat.
  rewrite <- (shuffle_Permutation 1000 x g) at 3.
  rewrite take_ge; [done|].
  rewrite shuffle_Permutation.
  pose proof (Nat.div_mod_eq (length x) batch_size). lia.
Qed.

End DataFacts.

(** C4 (as amended): the pipeline is shuffle (buffer 1000), batch (32,
    remainder dropped), prefetch (1).  Every batch of a pass has exactly 32
    elements, each a row of the data set; a pass over [N] rows yields
    [N / 32] batches, which are the first [32 * (N / 32)] rows of the
    shuffled order, so its last [N mod 32] rows are in no batch.  For
    60000 rows that is 1875 batches and no row is left out. *)
Theorem dataset_pipeline_batches `{Random} {A : Type} (x : list A) (g : RNG) :
  let shuffled := (Data.shuffle 1000 (Data.from_tensor_slices x) g).1 in
  let batches := (dataset x g).1 in
  dataset x
    = Data.prefetch 1 (Data.batch 32 true (Data.shuffle 1000 (Data.from_tensor_slices x))) ∧
  shuffled ≡ₚ x ∧
  Forall (λ b, length b = 32) batches ∧
  (∀ b r, b ∈ batches → r ∈ b → r ∈ x) ∧
  length batches = length x / 32 ∧
  shuffled = concat batches ++ drop (32 * (length x / 32)) shuffled ∧
  length (drop (32 * (length x / 32)) shuffled) = length x `mod` 32 ∧
  (Z.of_nat (length x) = 60000%Z →
     Z.of_nat (length batches) = 1875%Z ∧ concat batches ≡ₚ x).
Proof.
  intros shuffled batches.
  assert (Hperm : shuffled ≡ₚ x) by apply shuffle_Permutation.
  assert (Hlen : length batches = length x / 32) by apply dataset_length.
  split_and!; try done.
  - apply dataset_full.
  - apply dataset_elem_of.
  - unfold batches. rewrite dataset_concat. by rewrite take_drop.
  - rewrite length_drop, Hperm.
    pose proof (Nat.div_mod_eq (length x) 32). lia.
  - intros HN. split.
    + rewrite Hlen. pose proof (Nat.div_mod_eq (length x) 32).
      pose proof (Nat.mod_upper_bound (length x) 32). lia.
    + apply dataset_whole. unfold batch_size.
      pose proof (Nat.div_mod_eq (length x) 32).
      pose proof (Nat.mod_upper_bound (length x) 32). lia.
Qed.

(** An epoch over 60000 rows does not leave 16 rows out: 32 divides
    60000, and on 60000 distinct rows every row is in some batch. *)
Lemma full_epoch_leaves_no_row_out :
  let x := Reference.numbered 60000 in
  let batches := (@dataset Reference.counter_random Z x 0%N).1 in
  Z.of_nat (length x) = 60000%Z ∧
  Z.of_nat (length (concat batches)) = 60000%Z ∧
  (∀ k, k ∈ x → k ∈ concat batches) ∧
  (60000 `mod` 32)%Z ≠ 16%Z.
Proof.
  intros x batches.
  assert (Hx : Z.of_nat (length x) = 60000%Z).
  { unfold x, Reference.numbered. rewrite length_seqZ. lia. }
  assert (Hperm : concat batches ≡ₚ x).
  { apply (dataset_whole (H:=Reference.counter_random)). unfold batch_size.
    pose proof (Nat.div_mod_eq (length x) 32).
    pose proof (Nat.mod_upper_bound (length x) 32). lia. }
  split_and!; [done| by rewrite Hperm | by intros k; rewrite Hperm | done].
Qed.

(** ** The networks *)

Lemma sigmoid_range (z : R) : (0 <= apply_activation Sigmoid z <= 1)%R.
Proof.
  simpl. pose proof (exp_pos (- z)) as He.
  assert (Hpos : (0 < 1 + exp (- z))%R) by Lra.lra.
  unfold Rdiv. rewrite Rmult_1_l. split.
  - left. by apply Rinv_0_lt_compat.
  - rewrite <- Rinv_1 at 2. apply Rinv_le_contravar; Lra.lra.
Qed.

(** C3: [n] noise vectors of dimension 100 go through the generator to
    [n] images of shape [28, 28, 1]; that is the discriminator's declared
    input shape; the discriminator gives one scalar per image, and that
    scalar, a sigmoid, lies in [[0, 1]]. *)
Theorem generator_feeds_discriminator (n : nat) :
  num_features = 100 ∧
  output_shape generator [n; num_features] = Some [n; 28; 28; 1] ∧
  input_shape discriminator = [28; 28; 1] ∧
  output_shape discriminator [n; 28; 28; 1] = Some [n; 1] ∧
  gan_output_shape [n; num_features] = Some [n; 1] ∧
  output_activation discriminator = Some Sigmoid ∧
  (∀ z : R, (0 <= apply_activation Sigmoid z <= 1)%R).
Proof.
  split_and!; try reflexivity. apply sigmoid_range.
Qed.

(** ** The monad and its loops *)

Section RuntimeFacts.
Context `{Random} `{Backend}.
Implicit Types (s : state) (l : list event).

Lemma bind_unfold {A B} (m : M A) (f : A → M B) s :
  (m ≫= f) s =
  match m s with
  | Ok a s1 => f a s1
  | Raise e s1 => Raise e s1
  end.
Proof. reflexivity. Qed.

Lemma bind_ok {A B} (m : M A) (f : A → M B) s a s1 :
  m s = Ok a s1 → (m ≫= f) s = f a s1.
Proof. intros Hm. by rewrite bind_unfold, Hm. Qed.

Lemma bind_raise {A B} (m : M A) (f : A → M B) s e s1 :
  m s = Raise e s1 → (m ≫= f) s = Raise e s1.
Proof. intros Hm. by rewrite bind_unfold, Hm. Qed.

Lemma for_in_app {A} (l1 l2 : list A) (body : A → M unit) v s :
  for_in (l1 ++ l2) body v s =
  match for_in l1 body v s with
  | Ok v' s1 => for_in l2 body v' s1
  | Raise e s1 => Raise e s1
  end.
Proof.
  revert v s. induction l1 as [|x l1 IH]; intros v s; simpl; [done|].
  rewrite !bind_unfold. destruct (body x s) as [[] s1|e s1]; [apply IH|done].
Qed.

(** A loop whose body always succeeds and extends an invariant indexed by
    the elements done so far. *)
Lemma for_in_ok {A} (Inv : list A → state → Prop) (l : list A) (body : A → M unit) v s :
  Inv [] s →
  (∀ done x s1, x ∈ l → Inv done s1 →
     ∃ s2, body x s1 = Ok tt s2 ∧ Inv (done ++ [x]) s2) →
  ∃ s', for_in l body v s = Ok (from_option Some v (last l)) s' ∧ Inv l s'.
Proof.
  revert Inv v s. induction l as [|x l IH]; intros Inv v s Hinit Hbody; simpl.
  - by exists s.
  - destruct (Hbody [] x s) as (s2 & Hx & Hinv); [left|done|].
    rewrite (bind_ok _ _ _ _ _ Hx).
    destruct (IH (λ done, Inv (x :: done)) (Some x) s2 Hinv) as (s' & Hrun & Hfin).
    { intros done y s1 Hy Hd. apply (Hbody (x :: done) y s1); [by right|done]. }
    exists s'. split; [|done]. rewrite Hrun, last_cons. by destruct (last l).
Qed.

(** *** Rules for [preserves] *)

Lemma preserves_ret {A} (I : state → Prop) (a : A) : preserves I (mret a).
Proof. by intros s. Qed.

Lemma preserves_raise {A} (I : state → Prop) e : preserves I (raise (A:=A) e).
Proof. by intros s. Qed.

Lemma preserves_gets {A} (I : state → Prop) (f : state → A) : preserves I (gets f).
Proof. by intros s. Qed.

Lemma preserves_bind {A B} (I : state → Prop) (m : M A) (f : A → M B) :
  preserves I m → (∀ a, preserves I (f a)) → preserves I (m ≫= f).
Proof.
  intros Hm Hf s Hs. rewrite bind_unfold. specialize (Hm s Hs).
  destruct (m s) as [a s1|e s1]; simpl in *; [by apply Hf|done].
Qed.

Lemma preserves_for_in {A} (I : state → Prop) (l : list A) (body : A → M unit) v :
  (∀ x, preserves I (body x)) → preserves I (for_in l body v).
Proof.
  intros Hbody. revert v. induction l as [|x l IH]; intros v; simpl.
  - apply preserves_ret.
  - apply preserves_bind; [apply Hbody | intros _; apply IH].
Qed.

Lemma preserves_read_local {A} (I : state → Prop) name (v : option A) :
  preserves I (read_local name v).
Proof. destruct v; [apply preserves_ret | apply preserves_raise]. Qed.

(** *** Framework calls *)

Lemma normal_row_length d g : length (normal_row d g).1 = d.
Proof.
  revert g. induction d as [|d IH]; intros g; simpl; [done|].
  destruct (rand_normal g) as [v g1]. specialize (IH g1).
  destruct (normal_row d g1) as [r g2]. simpl in *. by rewrite IH.
Qed.

Lemma normal_rows_length n d g : length (normal_rows n d g).1 = n.
Proof.
  revert g. induction n as [|n IH]; intros g; simpl; [done|].
  destruct (normal_row d g) as [r g1]. specialize (IH g1).
  destruct (normal_rows n d g1) as [rs g2]. simpl in *. by rewrite IH.
Qed.

Lemma normal_rows_width n d g : Forall (λ r : row, length r = d) (normal_rows n d g).1.
Proof.
  revert g. induction n as [|n IH]; intros g; simpl; [done|].
  pose proof (normal_row_length d g) as Hr.
  destruct (normal_row d g) as [r g1]. specialize (IH g1).
  destruct (normal_rows n d g1) as [rs g2]. simpl in *. by constructor.
Qed.

(** What the interface promises of the generator, unfolded. *)
Lemma forward_generator_images w t x :
  length (forward_generator w t x) = length x ∧
  Forall (has_shape3 28 28 1) (forward_generator w t x).
Proof. by apply (forward_generator_shape w t x [length x; 28; 28; 1]). Qed.

Lemma slice_channel_is_Some c h w ch img :
  has_shape3 h w ch img → c < ch → is_Some (slice_channel c img).
Proof.
  intros [_ Himg] Hc. apply mapM_is_Some_2.
  eapply Forall_impl; [exact Himg|]. intros line [_ Hline]. simpl.
  apply mapM_is_Some_2. eapply Forall_impl; [exact Hline|].
  intros px Hpx. simpl in *. apply lookup_lt_is_Some. lia.
Qed.

Lemma sample_panel_is_Some predictions i :
  Forall (has_shape3 28 28 1) predictions → i < length predictions →
  is_Some (sample_panel predictions i).
Proof.
  intros Hshape Hi. unfold sample_panel.
  destruct (lookup_lt_is_Some_2 predictions i Hi) as [img Himg]. rewrite Himg. simpl.
  destruct (slice_channel_is_Some 0 28 28 1 img) as [p Hp]; [|lia|].
  - eapply Forall_lookup_1; eauto.
  - by rewrite Hp.
Qed.

Lemma sample_figure_is_Some predictions :
  Forall (has_shape3 28 28 1) predictions → 25 ≤ length predictions →
  is_Some (sample_figure predictions).
Proof.
  intros Hshape Hlen. apply mapM_is_Some_2, Forall_forall.
  intros i Hi%elem_of_seq. apply sample_panel_is_Some; [done|lia].
Qed.

(** One training step: it always returns, logs its three calls and leaves
    [discriminator.trainable] at [False]. *)
Lemma train_step_ok bs nf X s :
  ∃ s' l,
    train_step bs nf X s = Ok tt s' ∧
    step_trace bs nf X l ∧ log s' = log s ++ l ∧
    trainable s' = false ∧ data_rng s' = data_rng s ∧ seed s' = seed s ∧
    files s' = files s.
Proof.
  unfold train_step. rewrite bind_unfold. unfold tf_random_normal.
  pose proof (normal_rows_length bs nf (rng s)) as Hn.
  pose proof (normal_rows_width bs nf (rng s)) as Hw.
  destruct (normal_rows bs nf (rng s)) as [noise g]. simpl in Hn, Hw.
  eexists _, (step_events bs (vars s) noise X). split; [reflexivity|].
  split; [by exists (vars s), noise|]. simpl.
  by rewrite <- !(assoc_L (++)).
Qed.

(** The same step, with the variables its generated images come from. *)
Lemma train_step_run bs nf X s :
  ∃ s' noise,
    train_step bs nf X s = Ok tt s' ∧
    length noise = bs ∧
    length (forward_generator (vars s) false noise) = bs ∧
    log s' = log s ++ step_events bs (vars s) noise X ∧
    trainable s' = false.
Proof.
  unfold train_step. rewrite bind_unfold. unfold tf_random_normal.
  pose proof (normal_rows_length bs nf (rng s)) as Hn.
  destruct (normal_rows bs nf (rng s)) as [noise g]. simpl in Hn.
  destruct (forward_generator_images (vars s) false noise) as [Hfake _].
  eexists _, noise. split; [reflexivity|].
  split_and!; [done|congruence| |done]. simpl. by rewrite <- !(assoc_L (++)).
Qed.
(** *** Rendering *)

Lemma same_outside_pyplot_refl s : same_outside_pyplot s s.
Proof. by repeat split. Qed.

Lemma same_outside_pyplot_trans s1 s2 s3 :
  same_outside_pyplot s1 s2 → same_outside_pyplot s2 s3 → same_outside_pyplot s1 s3.
Proof.
  unfold same_outside_pyplot. intros (?&?&?&?&?&?&?) (?&?&?&?&?&?&?).
  repeat split; congruence.
Qed.

Lemma draw_prediction_ok predictions i p s :
  sample_panel predictions i = Some p →
  ∃ s', draw_prediction predictions i s = Ok tt s' ∧
        figure s' = figure s ++ [p] ∧ same_outside_pyplot s s'.
Proof.
  unfold sample_panel, draw_prediction, tensor_slice. intros Hp.
  destruct (predictions !! i) as [img|]; [|done]. simpl in Hp.
  destruct (slice_channel 0 img) as [q|]; [|done]. simpl in Hp.
  injection Hp as <-. eexists. split; [reflexivity|]. by repeat split.
Qed.

Lemma draw_prediction_raise predictions i s :
  predictions !! i = None →
  ∃ s', draw_prediction predictions i s
          = Raise (InvalidArgumentError i (length predictions)) s' ∧
        figure s' = figure s ∧ same_outside_pyplot s s'.
Proof.
  unfold draw_prediction, tensor_slice. intros ->.
  eexists. split; [reflexivity|]. by repeat split.
Qed.

Lemma draw_loop_ok predictions (l : list nat) ps v s :
  mapM (sample_panel predictions) l = Some ps →
  ∃ s', for_in l (draw_prediction predictions) v s
          = Ok (from_option Some v (last l)) s' ∧
        figure s' = figure s ++ ps ∧ same_outside_pyplot s s'.
Proof.
  revert ps v s. induction l as [|i l IH]; intros ps v s Hps; simpl in *.
  - injection Hps as <-. exists s. rewrite app_nil_r.
    split_and!; [done..|apply same_outside_pyplot_refl].
  - destruct (sample_panel predictions i) as [p|] eqn:Hp; [|done]. simpl in Hps.
    destruct (mapM (sample_panel predictions) l) as [ps'|] eqn:Hl; [|done].
    injection Hps as <-.
    destruct (draw_prediction_ok predictions i p s Hp) as (s1 & Hrun1 & Hfig1 & Hsame1).
    destruct (IH ps' (Some i) s1 eq_refl) as (s' & Hrun & Hfig & Hsame).
    exists s'. rewrite (bind_ok _ _ _ _ _ Hrun1), Hrun, last_cons.
    split_and!.
    + by destruct (last l).
    + by rewrite Hfig, Hfig1, <- (assoc_L (++)).
    + by eapply same_outside_pyplot_trans.
Qed.

(** A rendering of at least 25 rows returns: it calls the model in
    inference mode, draws the grid, writes the file and shows the figure. *)
Lemma generate_and_save_images_ok epoch test_input s :
  25 ≤ length test_input →
  ∃ s' fig,
    generate_and_save_images call_generator epoch test_input s = Ok tt s' ∧
    sample_figure (forward_generator (vars s) false test_input) = Some fig ∧
    log s' = log s ++ render_events epoch test_input fig ∧
    files s' = <[image_file_name epoch := fig]> (files s) ∧
    vars s' = vars s ∧ trainable s' = trainable s ∧
    data_rng s' = data_rng s ∧ seed s' = seed s.
Proof.
  intros Hlen.
  destruct (forward_generator_images (vars s) false test_input) as [Hn Hshape].
  destruct (sample_figure_is_Some (forward_generator (vars s) false test_input))
    as [fig Hfig]; [done|lia|].
  set (s1 := with_figure [] (emit (EvCallGenerator (Some false) test_input) s)).
  destruct (draw_loop_ok _ (seq 0 25) fig None s1 Hfig)
    as (s2 & Hrun & Hfig2 & (Hv & Ht & Hr & Hd & Hs & Hf & Hl)).
  unfold generate_and_save_images.
  erewrite bind_ok by reflexivity. erewrite bind_ok by reflexivity.
  erewrite bind_ok by exact Hrun. simpl in Hfig2.
  eexists _, fig. split; [reflexivity|]. simpl. rewrite Hfig2, Hl, Hf, Hv, Ht, Hd, Hs.
  simpl. split_and!; try done. by rewrite <- !(assoc_L (++)).
Qed.

(** With fewer than 25 rows the rendering stops at the first missing
    prediction, before anything is written. *)
Lemma generate_and_save_images_raise epoch test_input s :
  length test_input < 25 →
  ∃ s',
    generate_and_save_images call_generator epoch test_input s
      = Raise (InvalidArgumentError (length test_input) (length test_input)) s' ∧
    log s' = log s ++ [EvCallGenerator (Some false) test_input] ∧
    files s' = files s ∧ trainable s' = trainable s.
Proof.
  intros Hlen.
  destruct (forward_generator_images (vars s) false test_input) as [Hn Hshape].
  set (n := length test_input) in *.
  assert (Hsplit : seq 0 25 = seq 0 n ++ n :: seq (S n) (25 - S n)).
  { replace 25 with (n + S (25 - S n)) at 1 by lia. by rewrite seq_app. }
  destruct (mapM_is_Some_2 (sample_panel (forward_generator (vars s) false test_input))
              (seq 0 n)) as [ps Hps].
  { apply Forall_forall. intros i Hi%elem_of_seq.
    apply sample_panel_is_Some; [done|lia]. }
  set (s1 := with_figure [] (emit (EvCallGenerator (Some false) test_input) s)).
  destruct (draw_loop_ok _ (seq 0 n) ps None s1 Hps)
    as (s2 & Hrun & Hfig2 & Hsame2).
  destruct (draw_prediction_raise (forward_generator (vars s) false test_input) n s2)
    as (s3 & Hrun3 & Hfig3 & Hsame3).
  { apply lookup_ge_None. lia. }
  destruct (same_outside_pyplot_trans _ _ _ Hsame2 Hsame3)
    as (Hv & Ht & Hr & Hd & Hs & Hf & Hl).
  assert (Hloop : for_in (seq 0 25)
             (draw_prediction (forward_generator (vars s) false test_input)) None s1
           = Raise (InvalidArgumentError n n) s3).
  { rewrite Hsplit, for_in_app, Hrun. simpl.
    erewrite bind_raise by exact Hrun3. by rewrite Hn. }
  unfold generate_and_save_images.
  erewrite bind_ok by reflexivity. erewrite bind_ok by reflexivity.
  erewrite bind_raise by exact Hloop.
  eexists. split; [reflexivity|]. by rewrite Hl, Hf, Ht.
Qed.

(** *** What a log writes *)

Lemma saved_app l1 l2 : saved (l1 ++ l2) = saved l1 ++ saved l2.
Proof. apply omap_app. Qed.

Lemma saved_cons e l :
  saved (e :: l) = from_option (λ p, p :: saved l) (saved l) (saved_of e).
Proof. unfold saved. simpl. by destruct (saved_of e). Qed.

Lemma replay_app l1 l2 m : replay (l1 ++ l2) m = replay l2 (replay l1 m).
Proof. unfold replay, write_all. by rewrite saved_app, foldl_app. Qed.

Lemma saved_pass ds bs nf l : pass_trace ds bs nf l → saved l = [].
Proof.
  intros (g & steps & Hsteps & ->).
  induction Hsteps as [|X l' batches steps (w & noise & _ & _ & ->) _ IH]; [done|].
  by rewrite concat_cons, saved_app, IH.
Qed.

Lemma saved_render w e x l :
  render_trace w e x l → ∃ fig, saved l = [(image_file_name e, fig)].
Proof. intros (fig & _ & ->). by exists fig. Qed.

(** *** The loops of [train_dcgan] *)

Lemma iterate_unfold {A} (ds : Data.Dataset (A:=A)) s :
  iterate ds s = Ok (ds (data_rng s)).1 (with_data_rng (ds (data_rng s)).2 s).
Proof. unfold iterate. by destruct (ds (data_rng s)). Qed.

Lemma train_pass_ok bs nf (batches : list (list image)) v s :
  ∃ s' steps,
    for_in batches (train_step bs nf) v s = Ok (from_option Some v (last batches)) s' ∧
    Forall2 (step_trace bs nf) batches steps ∧
    log s' = log s ++ concat steps ∧
    (trainable s = false → trainable s' = false) ∧
    data_rng s' = data_rng s ∧ seed s' = seed s ∧ files s' = files s.
Proof.
  revert v s. induction batches as [|X batches IH]; intros v s; simpl.
  - exists s, []. by rewrite app_nil_r.
  - destruct (train_step_ok bs nf X s) as (s1 & l & Hrun1 & Hl & Hlog1 & Ht1 & Hd1 & Hs1 & Hf1).
    destruct (IH (Some X) s1) as (s' & steps & Hrun & Hsteps & Hlog & Ht & Hd & Hs & Hf).
    exists s', (l :: steps). rewrite (bind_ok _ _ _ _ _ Hrun1), Hrun, last_cons.
    split_and!.
    + by destruct (last batches).
    + by constructor.
    + by rewrite Hlog, Hlog1, <- (assoc_L (++)).
    + auto.
    + congruence.
    + congruence.
    + congruence.
Qed.

Lemma train_epoch_ok ds bs nf E e s :
  25 ≤ length (seed s) →
  ∃ s' l,
    train_epoch ds bs nf E e s = Ok tt s' ∧
    epoch_trace ds bs nf E (seed s) e (vars s') l ∧
    log s' = log s ++ l ∧
    files s' = replay l (files s) ∧
    (trainable s = false → trainable s' = false) ∧
    seed s' = seed s.
Proof.
  intros Hseed. unfold train_epoch.
  erewrite bind_ok by reflexivity.
  erewrite bind_ok by apply iterate_unfold.
  match goal with |- context [(for_in ?b _ None ≫= _) ?s1] =>
    destruct (train_pass_ok bs nf b None s1)
      as (s2 & steps & Hrun2 & Hsteps & Hlog2 & Ht2 & Hd2 & Hs2 & Hf2) end.
  erewrite bind_ok by exact Hrun2.
  erewrite bind_ok by reflexivity. erewrite bind_ok by reflexivity.
  simpl in Hlog2, Ht2, Hs2, Hf2. cbv beta.
  match goal with |- context [generate_and_save_images _ _ ?x ?s3] =>
    destruct (generate_and_save_images_ok (e + 1) x s3)
      as (s' & fig & Hrun & Hfig & Hlog & Hf & Hv & Ht & Hd & Hs) end.
  { simpl. rewrite Hs2. done. }
  simpl in Hrun, Hfig, Hlog, Hf, Hv, Ht, Hs. rewrite Hs2 in *.
  exists s', (EvPrint ("Epochs " +:+ pretty (e + 1) +:+ "/" +:+ pretty E)
               :: concat steps ++ EvClearOutput :: render_events (e + 1) (seed s) fig).
  assert (Hpass : pass_trace ds bs nf (concat steps)) by (by exists (data_rng s), steps).
  split_and!.
  - change (seed (emit EvClearOutput s2)) with (seed s2). by rewrite Hs2.
  - exists (concat steps), (render_events (e + 1) (seed s) fig).
    split_and!; [done| |done]. exists fig. by rewrite Hv.
  - rewrite Hlog, Hlog2. by rewrite <- !(assoc_L (++)).
  - rewrite Hf, Hf2. unfold replay.
    by rewrite saved_cons, saved_app, (saved_pass _ _ _ _ Hpass), saved_cons.
  - intros Hfalse. rewrite Ht. auto.
  - done.
Qed.

Lemma last_seq_0 n : 1 ≤ n → last (seq 0 n) = Some (n - 1).
Proof.
  intros Hn. replace n with (S (n - 1)) at 1 by lia.
  by rewrite seq_S, last_snoc.
Qed.

(** The run of [train_dcgan], when it has at least one epoch and a seed of
    at least 25 rows. *)
Lemma train_dcgan_ok ds bs nf E s :
  1 ≤ E → 25 ≤ length (seed s) →
  ∃ s' l,
    train_dcgan ds bs nf E s = Ok tt s' ∧
    run_trace ds bs nf E (seed s) l ∧
    log s' = log s ++ l ∧
    files s' = replay l (files s) ∧
    (trainable s = false → trainable s' = false) ∧
    seed s' = seed s.
Proof.
  intros HE Hseed. unfold train_dcgan.
  destruct (for_in_ok
    (λ done s1, ∃ eps : list (Vars * list event),
       Forall2 (λ e p, epoch_trace ds bs nf E (seed s) e p.1 p.2) done eps ∧
       log s1 = log s ++ concat eps.*2 ∧
       files s1 = replay (concat eps.*2) (files s) ∧
       (trainable s = false → trainable s1 = false) ∧
       seed s1 = seed s ∧
       (done = [] ∨ last eps.*1 = Some (vars s1)))
    (seq 0 E) (train_epoch ds bs nf E) None s)
    as (s1 & Hrun1 & eps & Heps & Hlog1 & Hf1 & Ht1 & Hs1 & Hlast).
  { exists []. rewrite app_nil_r. split_and!; auto. }
  { intros done e s1 _ (eps & Heps & Hlog1 & Hf1 & Ht1 & Hs1 & _).
    destruct (train_epoch_ok ds bs nf E e s1) as (s2 & l & Hrun & Hl & Hlog & Hf & Ht & Hs).
    { by rewrite Hs1. }
    rewrite Hs1 in Hl.
    exists s2. split; [done|]. exists (eps ++ [(vars s2, l)]).
    rewrite !fmap_app, concat_app. simpl. rewrite app_nil_r.
    split_and!.
    - apply Forall2_app; [done|]. by constructor.
    - by rewrite Hlog, Hlog1, <- (assoc_L (++)).
    - by rewrite Hf, Hf1, replay_app.
    - auto.
    - congruence.
    - right. by rewrite last_snoc. }
  erewrite bind_ok by exact Hrun1. rewrite last_seq_0 by done. simpl.
  erewrite bind_ok by reflexivity. erewrite bind_ok by reflexivity.
  erewrite bind_ok by reflexivity.
  destruct Hlast as [Hnil|Hlast]; [destruct E; [lia|done]|]. cbv beta.
  match goal with |- context [generate_and_save_images _ ?k ?x ?s3] =>
    destruct (generate_and_save_images_ok k x s3)
      as (s' & fig & Hrun & Hfig & Hlog & Hf & Hv & Ht & Hd & Hs) end.
  { simpl. by rewrite Hs1. }
  simpl in Hrun, Hfig, Hlog, Hf, Hv, Ht, Hs. rewrite Hs1 in *.
  replace (E - 1 + 1) with E in * by lia.
  exists s', (concat eps.*2 ++ EvClearOutput :: render_events E (seed s) fig).
  split_and!.
  - change (seed (emit EvClearOutput s1)) with (seed s1). by rewrite Hs1.
  - exists eps, (vars s1), (render_events E (seed s) fig).
    split_and!; [done|done| |done]. by exists fig.
  - rewrite Hlog, Hlog1. by rewrite <- !(assoc_L (++)).
  - rewrite Hf, Hf1. by rewrite replay_app.
  - intros Hfalse. rewrite Ht. auto.
  - done.
Qed.

(** *** Optimizer steps in a log *)

Lemma updates_app l1 l2 : updates (l1 ++ l2) = updates l1 ++ updates l2.
Proof. apply omap_app. Qed.

Lemma concat_replicate_mul {A} (n m : nat) (x : list A) :
  concat (replicate n (concat (replicate m x))) = concat (replicate (n * m) x).
Proof.
  induction n as [|n IH]; simpl; [done|].
  by rewrite IH, replicate_add, concat_app.
Qed.

Lemma updates_pass bs nf (batches : list (list image)) steps :
  Forall2 (step_trace bs nf) batches steps →
  updates (concat steps)
  = concat (replicate (length batches) [DiscriminatorUpdate; GeneratorUpdate]).
Proof.
  induction 1 as [|X l batches steps (w & noise & _ & _ & ->) _ IH]; [done|].
  rewrite concat_cons, updates_app, IH. done.
Qed.

Lemma updates_epoch ds bs nf E sd e w l B :
  (∀ g, length (ds g).1 = B) →
  epoch_trace ds bs nf E sd e w l →
  updates l = concat (replicate B [DiscriminatorUpdate; GeneratorUpdate]).
Proof.
  intros HB (training & rendering & (g & steps & Hsteps & ->) & (fig & _ & ->) & ->).
  change (updates (concat steps ++ EvClearOutput :: render_events (e + 1) sd fig)
          = concat (replicate B [DiscriminatorUpdate; GeneratorUpdate])).
  rewrite updates_app, (updates_pass _ _ _ _ Hsteps), HB. apply app_nil_r.
Qed.

Lemma updates_run ds bs nf E sd l B :
  (∀ g, length (ds g).1 = B) →
  run_trace ds bs nf E sd l →
  updates l = concat (replicate (E * B) [DiscriminatorUpdate; GeneratorUpdate]).
Proof.
  intros HB (eps & w & rendering & Heps & _ & (fig & _ & ->) & ->).
  rewrite updates_app. change (updates (EvClearOutput :: _)) with (@nil update).
  rewrite app_nil_r, <- concat_replicate_mul.
  assert (Hgen : updates (concat eps.*2)
            = concat (replicate (length (seq 0 E))
                        (concat (replicate B [DiscriminatorUpdate; GeneratorUpdate])))).
  { induction Heps as [|e p es eps Hp _ IH]; [done|].
    rewrite fmap_cons, concat_cons, updates_app, IH.
    by rewrite (updates_epoch _ _ _ _ _ _ _ _ _ HB Hp). }
  by rewrite Hgen, length_seq.
Qed.

Lemma updates_count n :
  length (filter (λ u, u = DiscriminatorUpdate)
            (concat (replicate n [DiscriminatorUpdate; GeneratorUpdate]))) = n ∧
  length (filter (λ u, u = GeneratorUpdate)
            (concat (replicate n [DiscriminatorUpdate; GeneratorUpdate]))) = n.
Proof. induction n as [|n [IH1 IH2]]; [done|]. split; simpl; by f_equal. Qed.

Lemma steps_adjacent_app l1 l2 :
  steps_adjacent l1 → steps_adjacent l2 → steps_adjacent (l1 ++ l2).
Proof.
  intros H1 H2. remember (length l1) as n eqn:Hn. revert l1 Hn H1.
  induction n as [n IH] using lt_wf_ind. intros [|d l1] Hn H1; [done|].
  simpl in *. destruct (update_of d) as [[]|].
  - destruct l1 as [|g l1]; [done|]. destruct H1 as [Hg H1]. simpl.
    split; [done|]. apply (IH (length l1)); [simpl in Hn; lia|done..].
  - done.
  - apply (IH (length l1)); [lia|done..].
Qed.

Lemma steps_adjacent_pass ds bs nf l : pass_trace ds bs nf l → steps_adjacent l.
Proof.
  intros (g & steps & Hsteps & ->).
  induction Hsteps as [|X l batches steps (w & noise & _ & _ & ->) _ IH]; [done|].
  rewrite concat_cons. by apply steps_adjacent_app.
Qed.

Lemma steps_adjacent_epoch ds bs nf E sd e w l :
  epoch_trace ds bs nf E sd e w l → steps_adjacent l.
Proof.
  intros (training & rendering & Hpass & (fig & _ & ->) & ->).
  change (steps_adjacent (training ++ EvClearOutput :: render_events (e + 1) sd fig)).
  apply steps_adjacent_app; [by eapply steps_adjacent_pass|done].
Qed.

Lemma steps_adjacent_run ds bs nf E sd l : run_trace ds bs nf E sd l → steps_adjacent l.
Proof.
  intros (eps & w & rendering & Heps & _ & (fig & _ & ->) & ->).
  apply steps_adjacent_app; [|done].
  induction Heps as [|e p es eps Hp _ IH]; [done|].
  rewrite fmap_cons, concat_cons.
  apply steps_adjacent_app; [by eapply steps_adjacent_epoch|done].
Qed.

(** *** The two fit calls of an iteration *)

Lemma paired_app (P : event → event → Prop) l1 l2 :
  paired P l1 → paired P l2 → paired P (l1 ++ l2).
Proof.
  intros H1 H2. remember (length l1) as n eqn:Hn. revert l1 Hn H1.
  induction n as [n IH] using lt_wf_ind. intros [|d [|g l1]] Hn H1; [done..|].
  destruct H1 as [Hdg H1]. simpl. split; [done|].
  apply (IH (length l1)); [simpl in Hn; lia|done..].
Qed.

Lemma adversarial_step_events ds bs nf rg X l :
  X ∈ (ds rg).1 → length X = bs → step_trace bs nf X l →
  paired (adversarial_step ds bs) (filter is_train l).
Proof.
  intros HX Hlen (w & noise & Hnoise & _ & ->).
  destruct (forward_generator_images w false noise) as [Hfake _].
  split; [|done]. exists w, noise, X, rg. simpl.
  split_and!; try done; [congruence|].
  apply zip_with_app. rewrite length_replicate. congruence.
Qed.

Lemma paired_steps ds bs nf rg (batches : list (list image)) steps :
  (∀ X, X ∈ batches → X ∈ (ds rg).1 ∧ length X = bs) →
  Forall2 (step_trace bs nf) batches steps →
  paired (adversarial_step ds bs) (filter is_train (concat steps)).
Proof.
  intros Hin Hsteps.
  induction Hsteps as [|X l batches' steps Hl _ IH]; [done|].
  rewrite concat_cons, filter_app. apply paired_app.
  - destruct (Hin X) as [HX Hlen]; [left|]. by eapply adversarial_step_events.
  - apply IH. intros Y HY. apply Hin. by right.
Qed.

Lemma paired_pass ds bs nf l :
  (∀ g, Forall (λ b, length b = bs) (ds g).1) →
  pass_trace ds bs nf l → paired (adversarial_step ds bs) (filter is_train l).
Proof.
  intros Hfull (rg & steps & Hsteps & ->).
  apply (paired_steps ds bs nf rg (ds rg).1); [|done].
  intros X HX. split; [done|]. by eapply (proj1 (Forall_forall _ _) (Hfull rg)).
Qed.

Lemma paired_epoch ds bs nf E sd e w l :
  (∀ g, Forall (λ b, length b = bs) (ds g).1) →
  epoch_trace ds bs nf E sd e w l → paired (adversarial_step ds bs) (filter is_train l).
Proof.
  intros Hfull (training & rendering & Hpass & (fig & _ & ->) & ->).
  change (paired (adversarial_step ds bs)
            (filter is_train (training ++ EvClearOutput :: render_events (e + 1) sd fig))).
  rewrite filter_app. apply paired_app; [by eapply paired_pass|done].
Qed.

Lemma paired_run ds bs nf E sd l :
  (∀ g, Forall (λ b, length b = bs) (ds g).1) →
  run_trace ds bs nf E sd l → paired (adversarial_step ds bs) (filter is_train l).
Proof.
  intros Hfull (eps & w & rendering & Heps & _ & (fig & _ & ->) & ->).
  rewrite filter_app. apply paired_app; [|done].
  induction Heps as [|e p es eps Hp _ IH]; [done|].
  rewrite fmap_cons, concat_cons, filter_app.
  apply paired_app; [by eapply paired_epoch|done].
Qed.

End RuntimeFacts.

(** ** The training procedure *)



(** ** Rendering during a run *)

Section RenderingFacts.
Context `{Random} `{Backend}.
Implicit Types (s : state) (l : list event).

(** The figure of a rendering: 25 panels, panel [i] at place [i + 1] of a
    5 by 5 grid, showing channel 0 of prediction [i], denormalized. *)
Lemma sample_figure_spec predictions fig :
  sample_figure predictions = Some fig →
  length fig = 25 ∧
  ∀ i, i < 25 →
    ∃ img p, predictions !! i = Some img ∧ slice_channel 0 img = Some p ∧
             fig !! i = Some ((5, 5, i + 1), map (map Preprocess.denormalize) p).
Proof.
  intros Hfig. pose proof (length_mapM _ _ _ Hfig) as Hlen.
  rewrite length_seq in Hlen. split; [done|].
  intros i Hi. apply mapM_Some_1 in Hfig.
  destruct (Forall2_lookup_l _ _ _ i i Hfig) as (pn & Hpn & Hpanel).
  { by rewrite lookup_seq_lt. }
  unfold sample_panel in Hpanel.
  destruct (predictions !! i) as [img|] eqn:Himg; [|done]. simpl in Hpanel.
  destruct (slice_channel 0 img) as [p|] eqn:Hp; [|done]. simpl in Hpanel.
  injection Hpanel as <-. by exists img, p.
Qed.

Lemma render_trace_spec w e x rl :
  render_trace w e x rl →
  ∃ fig,
    rl = [ EvCallGenerator (Some false) x;
           EvSavefig ("image_at_epoch_" +:+ format_04d e +:+ ".png") fig;
           EvShow fig ] ∧
    length fig = 25 ∧
    ∀ i, i < 25 →
      ∃ img p, forward_generator w false x !! i = Some img ∧
               slice_channel 0 img = Some p ∧
               fig !! i = Some ((5, 5, i + 1), map (map Preprocess.denormalize) p).
Proof.
  intros (fig & Hfig & ->). exists fig.
  destruct (sample_figure_spec _ _ Hfig) as [Hlen Hpanels]. by split_and!.
Qed.

Lemma generate_and_save_images_spec e x s :
  25 ≤ length x →
  ∃ s' fig,
    generate_and_save_images call_generator e x s = Ok tt s' ∧
    render_trace (vars s) e x (render_events e x fig) ∧
    log s' = log s ++ render_events e x fig ∧
    files s' !! image_file_name e = Some fig.
Proof.
  intros Hx.
  destruct (generate_and_save_images_ok e x s Hx) as (s' & fig & Hrun & Hfig & Hlog & Hf & _).
  exists s', fig. split_and!; [done|by exists fig|done|].
  by rewrite Hf, lookup_insert_eq.
Qed.

Lemma no_render_in_pass ds bs nf l : pass_trace ds bs nf l → filter is_render l = [].
Proof.
  intros (g & steps & Hsteps & ->).
  induction Hsteps as [|X l batches steps (w & noise & _ & _ & ->) _ IH]; [done|].
  by rewrite concat_cons, filter_app, IH.
Qed.

Lemma epoch_trace_then_render ds bs nf E sd e w l :
  epoch_trace ds bs nf E sd e w l → epoch_then_render sd (S e) l.
Proof.
  intros (training & rendering & Hpass & Hrender & ->).
  rewrite Nat.add_1_r in Hrender.
  exists w, (EvPrint ("Epochs " +:+ pretty (e + 1) +:+ "/" +:+ pretty E) :: training),
    rendering.
  split_and!; [done| |done].
  rewrite filter_cons_False by (simpl; tauto). by eapply no_render_in_pass.
Qed.

Lemma run_trace_renders ds bs nf E sd l :
  run_trace ds bs nf E sd l →
  ∃ chunks final w,
    l = concat chunks ++ EvClearOutput :: final ∧
    Forall2 (epoch_then_render sd) (seq 1 E) chunks ∧
    render_trace w E sd final.
Proof.
  intros (eps & w & rendering & Heps & _ & Hrender & ->).
  exists eps.*2, rendering, w. split_and!; [done| |done].
  rewrite <- fmap_S_seq. apply Forall2_fmap.
  eapply Forall2_impl; [exact Heps|]. intros e p Hp.
  exact (epoch_trace_then_render _ _ _ _ _ _ _ _ Hp).
Qed.

(** *** The files of a run *)

Lemma saved_epoch ds bs nf E sd e w l :
  epoch_trace ds bs nf E sd e w l →
  ∃ fig, sample_figure (forward_generator w false sd) = Some fig ∧
         saved l = [(image_file_name (S e), fig)].
Proof.
  intros (training & rendering & Hpass & (fig & Hfig & ->) & ->).
  exists fig. split; [done|].
  rewrite saved_cons, saved_app, (saved_pass _ _ _ _ Hpass), Nat.add_1_r. done.
Qed.

Lemma saved_epochs_names ds bs nf E sd es (eps : list (Vars * list event)) :
  Forall2 (λ e p, epoch_trace ds bs nf E sd e p.1 p.2) es eps →
  (saved (concat eps.*2)).*1 = image_file_name <$> (S <$> es).
Proof.
  induction 1 as [|e p es eps Hp _ IH]; [done|].
  destruct (saved_epoch _ _ _ _ _ _ _ _ Hp) as (fig & _ & Hsaved).
  rewrite !fmap_cons, concat_cons, saved_app, fmap_app, IH, Hsaved. done.
Qed.

Lemma saved_run ds bs nf E sd l :
  1 ≤ E → run_trace ds bs nf E sd l →
  (saved l).*1 = image_file_name <$> (seq 1 E ++ [E]) ∧
  ∃ earlier fig,
    saved l = earlier ++ [(image_file_name E, fig); (image_file_name E, fig)].
Proof.
  intros HE (eps & w & rendering & Heps & Hlast & (fig & Hfig & ->) & ->).
  rewrite saved_app, saved_cons. simpl. split.
  - rewrite fmap_app, (saved_epochs_names _ _ _ _ _ _ _ Heps), fmap_S_seq.
    by rewrite fmap_app.
  - replace E with (S (E - 1)) in Heps at 1 by lia. rewrite seq_S in Heps.
    apply List.Forall2_app_inv_l in Heps as (eps1 & eps2 & _ & Hone & ->).
    inversion Hone as [|e p es eps' Hp Hnil]; subst. inversion Hnil; subst.
    rewrite fmap_app in Hlast. simpl in Hlast. rewrite last_snoc in Hlast.
    injection Hlast as Hw.
    destruct (saved_epoch _ _ _ _ _ _ _ _ Hp) as (fig' & Hfig' & Hsaved).
    rewrite Hw, Hfig in Hfig'. injection Hfig' as <-.
    exists (saved (concat eps1.*2)), fig.
    rewrite fmap_app, concat_app, saved_app. simpl. rewrite app_nil_r, Hsaved.
    replace (S (E - 1)) with E by lia. by rewrite <- (assoc_L (++)).
Qed.

Lemma write_all_twice m (earlier : list (string * list panel)) name fig :
  write_all m (earlier ++ [(name, fig); (name, fig)])
    = write_all m (earlier ++ [(name, fig)]) ∧
  write_all m (earlier ++ [(name, fig); (name, fig)]) !! name = Some fig.
Proof.
  unfold write_all. rewrite !foldl_app. simpl.
  by rewrite insert_insert_eq, lookup_insert_eq.
Qed.

End RenderingFacts.



(** ** What every statement keeps *)

Create HintDb keep discriminated.

Section Kept.
Context `{Random} `{Backend}.
Implicit Types (s : state) (l : list event).

Lemma kept_refl s : kept s s.
Proof.
  split_and!; [|done..]. exists []. by rewrite app_nil_r.
Qed.

(** A state change that appends [l] to the log, leaves the disk alone and
    either leaves [discriminator.trainable] alone or ends with it [False]. *)
Lemma kept_app s0 s s' l :
  log s' = log s ++ l →
  Forall (λ e, flag_ok e ∧ writes_image e) l →
  trainable s' = trainable s ∨ trainable s' = false →
  files s' = files s →
  kept s0 s → kept s0 s'.
Proof.
  intros Hlog Hl Ht Hf ((new & Hnew & Hok) & Hflag & Hframe). split_and!.
  - exists (new ++ l). rewrite Hlog, Hnew, (assoc_L (++)).
    split; [done|]. by apply Forall_app.
  - intros H0'. destruct Ht as [->| ->]; auto.
  - intros name Hname. rewrite Hf. by apply Hframe.
Qed.

Lemma kept_quiet s0 s s' :
  log s' = log s → trainable s' = trainable s → files s' = files s →
  kept s0 s → kept s0 s'.
Proof.
  intros Hlog Ht Hf. apply (kept_app s0 s s' []); [by rewrite app_nil_r|done|by left|done].
Qed.

Lemma kept_emit s0 s e :
  flag_ok e → saved_of e = None → kept s0 s → kept s0 (emit e s).
Proof.
  intros Hflag Hsaved. apply (kept_app s0 s _ [e]); [done| |by left|done].
  constructor; [|done]. split; [done|]. intros name fig. by rewrite Hsaved.
Qed.

Lemma kept_savefig s0 s epoch :
  kept s0 s → kept s0 (final_state (plt_savefig (image_file_name epoch) s)).
Proof.
  intros ((new & Hnew & Hok) & Hflag & Hframe). simpl. split_and!.
  - exists (new ++ [EvSavefig (image_file_name epoch) (figure s)]). simpl.
    rewrite Hnew, (assoc_L (++)). split; [done|].
    apply Forall_app. split; [done|]. constructor; [|done].
    split; [done|]. intros name fig [= <- _]. by exists epoch.
  - done.
  - intros name Hname. simpl. rewrite lookup_insert_ne by (by apply not_eq_sym).
    by apply Hframe.
Qed.

(** *** The primitives *)

Lemma keeps_modify_quiet s0 (f : state → state) :
  (∀ s, log (f s) = log s ∧ trainable (f s) = trainable s ∧ files (f s) = files s) →
  preserves (kept s0) (modify f).
Proof. intros Hf s Hs. destruct (Hf s) as (?&?&?). by eapply kept_quiet. Qed.

Lemma keeps_emit s0 e :
  flag_ok e → saved_of e = None → preserves (kept s0) (modify (emit e)).
Proof. intros ?? s Hs. by apply kept_emit. Qed.

Lemma keeps_print s0 text : preserves (kept s0) (print text).
Proof. by apply keeps_emit. Qed.

Lemma keeps_print_tensor s0 t : preserves (kept s0) (print_tensor t).
Proof. by apply keeps_emit. Qed.

Lemma keeps_clear_output s0 : preserves (kept s0) display_clear_output.
Proof. by apply keeps_emit. Qed.

Lemma keeps_plot_utils_show s0 x n : preserves (kept s0) (plot_utils_show x n).
Proof. by apply keeps_emit. Qed.

Lemma keeps_plt_figure s0 : preserves (kept s0) plt_figure.
Proof. by apply keeps_modify_quiet. Qed.

Lemma keeps_plt_subplot s0 r c i : preserves (kept s0) (plt_subplot r c i).
Proof. by apply keeps_modify_quiet. Qed.

Lemma keeps_plt_imshow s0 data : preserves (kept s0) (plt_imshow data).
Proof. by apply keeps_modify_quiet. Qed.

Lemma keeps_plt_decorate s0 : preserves (kept s0) plt_decorate.
Proof. apply preserves_ret. Qed.

Lemma keeps_plt_show s0 : preserves (kept s0) plt_show.
Proof. intros s Hs. by apply kept_emit. Qed.

Lemma keeps_plt_savefig s0 epoch : preserves (kept s0) (plt_savefig (image_file_name epoch)).
Proof. intros s Hs. by apply kept_savefig. Qed.

Lemma keeps_set_seed s0 x : preserves (kept s0) (modify (with_seed x)).
Proof. by apply keeps_modify_quiet. Qed.

Lemma keeps_set_trainable_false s0 : preserves (kept s0) (set_trainable false).
Proof.
  intros s Hs. apply (kept_app s0 s _ []); [by rewrite app_nil_r|done|by right|done|done].
Qed.

Lemma keeps_tf_random_normal s0 n d : preserves (kept s0) (tf_random_normal n d).
Proof.
  intros s Hs. unfold tf_random_normal. destruct (normal_rows n d (rng s)) as [t g].
  by eapply kept_quiet.
Qed.

Lemma keeps_iterate {A} s0 (ds : Data.Dataset (A:=A)) : preserves (kept s0) (iterate ds).
Proof. intros s Hs. rewrite iterate_unfold. by eapply kept_quiet. Qed.

Lemma keeps_call_generator s0 training x : preserves (kept s0) (call_generator training x).
Proof. intros s Hs. by apply kept_emit. Qed.

Lemma keeps_call_discriminator s0 training x :
  preserves (kept s0) (call_discriminator training x).
Proof. intros s Hs. by apply kept_emit. Qed.

Lemma keeps_tensor_slice s0 predictions i c :
  preserves (kept s0) (tensor_slice predictions i c).
Proof.
  unfold tensor_slice. destruct (predictions !! i) as [img|]; [|apply preserves_raise].
  destruct (slice_channel c img); [apply preserves_ret|apply preserves_raise].
Qed.

Lemma keeps_numpy_index {A} s0 (x : list A) i : preserves (kept s0) (numpy_index x i).
Proof.
  unfold numpy_index. destruct (x !! i); [apply preserves_ret|apply preserves_raise].
Qed.

(** One training step sets the flag before each of its two fit calls. *)
Lemma keeps_train_step s0 bs nf X : preserves (kept s0) (train_step bs nf X).
Proof.
  intros s Hs.
  destruct (train_step_ok bs nf X s)
    as (s' & l & -> & (w & noise & _ & _ & ->) & Hlog & Ht & _ & _ & Hf).
  apply (kept_app s0 s s' _ Hlog); [|by right|done|done].
  repeat (constructor; [by split|]). constructor.
Qed.

#[local] Hint Resolve preserves_ret preserves_raise preserves_gets preserves_bind
  preserves_for_in preserves_read_local keeps_print keeps_print_tensor
  keeps_clear_output keeps_plot_utils_show keeps_plt_figure keeps_plt_subplot
  keeps_plt_imshow keeps_plt_decorate keeps_plt_show keeps_plt_savefig keeps_set_seed
  keeps_set_trainable_false keeps_tf_random_normal keeps_iterate keeps_call_generator
  keeps_call_discriminator keeps_tensor_slice keeps_numpy_index keeps_train_step : keep.

Lemma keeps_generate_and_save_images s0 epoch x :
  preserves (kept s0) (generate_and_save_images call_generator epoch x).
Proof. unfold generate_and_save_images, draw_prediction. auto 20 with keep. Qed.

#[local] Hint Resolve keeps_generate_and_save_images : keep.

Lemma keeps_train_dcgan s0 ds bs nf E : preserves (kept s0) (train_dcgan ds bs nf E).
Proof. unfold train_dcgan, train_epoch. auto 20 with keep. Qed.

#[local] Hint Resolve keeps_train_dcgan : keep.

Lemma keeps_main s0 version raw : preserves (kept s0) (main version raw).
Proof. unfold main. auto 40 with keep. Qed.

End Kept.



(** ** The properties on the concrete framework *)

Section ReferenceRuns.
#[local] Existing Instance Reference.counter_random.
#[local] Existing Instance Reference.constant_backend.

Lemma reference_seed_rows : 25 ≤ length (seed Reference.ready).
Proof. simpl. lia. Qed.

Lemma reference_loader_length g : length (Reference.loader g).1 = 2.
Proof. unfold Reference.loader. by rewrite dataset_length. Qed.

Lemma reference_loader_full g : Forall (λ b, length b = 32) (Reference.loader g).1.
Proof. apply dataset_full. Qed.






Lemma full_epoch_batches_reference :
  let x := Reference.numbered 60000 in
  let batches := (dataset x 0%N).1 in
  Z.of_nat (length batches) = 1875%Z ∧ concat batches ≡ₚ x.
Proof.
  intros x batches.
  assert (Hx : Z.of_nat (length x) = 60000%Z).
  { unfold x, Reference.numbered. rewrite length_seqZ. lia. }
  destruct (dataset_pipeline_batches (H:=Reference.counter_random) x
              (0%N : @RNG Reference.counter_random))
    as (_ & _ & _ & _ & _ & _ & _ & Hfull).
  exact (Hfull Hx).
Defined.


(** The run of two epochs on the concrete framework, event by event. *)
Example reference_run_two_epochs :
  updates (log (final_state (train_dcgan Reference.loader 32 100 2 Reference.ready)))
  = [ DiscriminatorUpdate; GeneratorUpdate; DiscriminatorUpdate; GeneratorUpdate;
      DiscriminatorUpdate; GeneratorUpdate; DiscriminatorUpdate; GeneratorUpdate ]
  ∧
  (saved (log (final_state (train_dcgan Reference.loader 32 100 2 Reference.ready)))).*1
  = [ "image_at_epoch_0001.png"; "image_at_epoch_0002.png"; "image_at_epoch_0002.png" ].
Proof. by vm_compute. Qed.

Example reference_run_no_epoch :
  train_dcgan Reference.loader 32 100 0 Reference.ready
  = Raise (UnboundLocalError "epoch") (emit EvClearOutput Reference.ready).
Proof. reflexivity. Qed.

Example reference_script_files :
  let raw := replicate 64 (replicate 28 (replicate 28 255%Z)) in
  let r := main "2" raw Reference.start in
  is_ok r = true ∧
  (map_to_list (files (final_state r))).*1 = ["image_at_epoch_0001.png"] ∧
  length (seed (final_state r)) = 32 ∧
  trainable (final_state r) = false.
Proof. by vm_compute. Qed.

Example reference_short_seed :
  match generate_and_save_images call_generator 7 (replicate 10 []) Reference.start with
  | Raise e s => e = InvalidArgumentError 10 10 ∧ files s = ∅
  | Ok _ _ => False
  end.
Proof. by vm_compute. Qed.

End ReferenceRuns.

(* ================================================================= *)
(** * Part III: further properties of the script *)
(* ================================================================= *)

(** ** The input pipeline, continued *)

Section PipelineWindow.
Context `{Random} {A : Type}.
Implicit Types (x input buffer : list A) (g : RNG).

(** Output [k] of the shuffle buffer is in the buffer or among the first
    [k + 1] elements still to come. *)
Lemma shuffle_stream_window input buffer g k y :
  (Data.shuffle_stream input buffer g).1 !! k = Some y →
  y ∈ buffer ++ take (k + 1) input.
Proof.
  revert buffer g k. induction input as [|x input IH]; intros buffer g k; simpl.
  - intros Hk. rewrite take_nil, app_nil_r.
    rewrite <- (shuffle_drain_Permutation (length buffer) buffer g).
    by eapply list_elem_of_lookup_2.
  - destruct (rand_below g (length buffer)) as [i g1].
    destruct (buffer !! i) as [yb|] eqn:Hi.
    + specialize (IH (<[i:=x]> buffer) g1).
      destruct (Data.shuffle_stream input (<[i:=x]> buffer) g1) as [out g2]; simpl in *.
      destruct k as [|k]; simpl.
      * intros [= <-]. apply elem_of_app. left. by eapply list_elem_of_lookup_2.
      * intros Hk. apply IH, elem_of_app in Hk as [Hk|Hk].
        -- apply list_elem_of_lookup in Hk as [j Hj].
           destruct (decide (j = i)) as [->|Hne].
           ++ rewrite list_lookup_insert_eq in Hj by (by eapply lookup_lt_Some).
              injection Hj as <-. apply elem_of_app. right. left.
           ++ rewrite list_lookup_insert_ne in Hj by done.
              apply elem_of_app. left. by eapply list_elem_of_lookup_2.
        -- apply elem_of_app. right. by right.
    + specialize (IH buffer g1).
      destruct (Data.shuffle_stream input buffer g1) as [out g2]; simpl in *.
      destruct k as [|k]; simpl.
      * intros [= <-]. apply elem_of_app. right. left.
      * intros Hk. apply IH, elem_of_app in Hk as [Hk|Hk].
        -- apply elem_of_app. by left.
        -- apply elem_of_app. right. by right.
Qed.

Lemma shuffle_window n x g k y :
  (Data.shuffle n (Data.from_tensor_slices x) g).1 !! k = Some y →
  y ∈ take (n + (k + 1)) x.
Proof.
  unfold Data.shuffle, Data.from_tensor_slices. intros Hk.
  rewrite <- take_take_drop. by eapply shuffle_stream_window.
Qed.

Lemma join_concat (ls : list (list A)) : mjoin ls = concat ls.
Proof. induction ls as [|l ls IH]; simpl; [done|]. by rewrite IH. Qed.

Lemma dataset_batch_lookup x g j b i y :
  (dataset x g).1 !! j = Some b → b !! i = Some y →
  (Data.shuffle 1000 (Data.from_tensor_slices x) g).1 !! (j * 32 + i) = Some y.
Proof.
  intros Hb Hy.
  assert (Hcat : concat (dataset x g).1 !! (j * 32 + i) = Some y).
  { rewrite <- join_concat.
    apply (proj2 (join_lookup_Some_same_length 32 _ _ _ (dataset_full x g))).
    by exists j, b, i. }
  rewrite dataset_concat in Hcat. by apply lookup_take_Some in Hcat as [? _].
Qed.

Lemma dataset_submseteq x g : concat (dataset x g).1 ⊆+ x.
Proof.
  rewrite dataset_concat.
  etrans; [apply submseteq_take|]. by rewrite shuffle_Permutation.
Qed.

End PipelineWindow.

(** X1: the shuffle is local.  The rows of batch [j] of a pass (counting
    from 0) all come from the first [1000 + 32 * (j + 1)] rows of the data
    set: a row cannot be drawn before the buffer of 1000 has reached it. *)
Theorem dataset_batch_window `{Random} {A : Type} (x : list A) (g : RNG)
    (j : nat) (b : list A) (y : A) :
  (dataset x g).1 !! j = Some b →
  y ∈ b →
  y ∈ take (1000 + 32 * (j + 1)) x.
Proof.
  intros Hb [i Hy]%list_elem_of_lookup.
  pose proof (dataset_batch_lookup x g j b i y Hb Hy) as Hk.
  assert (Hi : i < 32).
  { pose proof (dataset_full x g) as Hfull.
    apply (Forall_lookup_1 _ _ _ _ Hfull) in Hb. unfold batch_size in Hb.
    apply lookup_lt_Some in Hy. lia. }
  apply shuffle_window, elem_of_take in Hk as (p & Hp & Hlt).
  apply elem_of_take. exists p. split; [done|lia].
Qed.

(** X2: a pass uses no row more often than the data set holds it; from a
    data set without repeats no row is seen twice in an epoch. *)
Theorem dataset_uses_rows_once `{Random} {A : Type} (x : list A) (g : RNG) :
  concat (dataset x g).1 ⊆+ x ∧
  (NoDup x → NoDup (concat (dataset x g).1)).
Proof.
  split; [apply dataset_submseteq|].
  intros Hx. rewrite dataset_concat.
  eapply sublist_NoDup; [|apply sublist_take]. by rewrite shuffle_Permutation.
Qed.

(** ** Preprocessing, on whole tensors *)

Lemma preprocess_range (p : Q) :
  (0 <= p <= 255)%Q →
  (-1 <= Preprocess.to_tanh_range (Preprocess.to_unit p) <= 1)%Q.
Proof.
  unfold Preprocess.to_tanh_range, Preprocess.to_unit. intros [Hlo Hhi].
  assert (E : (p / 255 == p * (1 # 255))%Q) by field.
  split; rewrite E; Lqa.lra.
Qed.

Lemma inject_Z_range (p : Z) :
  (0 ≤ p ≤ 255)%Z → (0 <= inject_Z p <= 255)%Q.
Proof. intros [Hlo Hhi]. unfold Qle. simpl. lia. Qed.

Lemma slice_channel_singletons (f : Q → Q) (img : plane) :
  slice_channel 0 (map (map (λ v, [f v])) img) = Some (map (map f) img).
Proof.
  unfold slice_channel. apply mapM_Some_2.
  apply Forall2_fmap_l, Forall2_fmap_r, Forall_Forall2_diag, Forall_forall.
  intros line _. simpl.
  apply mapM_Some_2, Forall2_fmap_l, Forall2_fmap_r, Forall_Forall2_diag, Forall_forall.
  by intros v _.
Qed.

(** X3: raw images of 28 by 28 entries in [[0, 255]] become a training
    set with as many examples, each of the discriminator's input shape
    [[28, 28, 1]] and with every entry in [[-1, 1]]. *)
Theorem training_set_fits_discriminator (raw : list Preprocess.raw_image) :
  Forall (λ img : Preprocess.raw_image,
            length img = 28 ∧
            Forall (λ line, length line = 28 ∧ Forall (λ p, (0 ≤ p ≤ 255)%Z) line) img)
         raw →
  let x := Preprocess.x_train_dcgan (Preprocess.x_train raw) in
  length x = length raw ∧
  Forall (has_shape3 28 28 1) x ∧
  Forall (Forall (Forall (Forall (λ v, (-1 <= v <= 1)%Q)))) x.
Proof.
  intros Hraw x. unfold x, Preprocess.x_train_dcgan, Preprocess.x_train.
  split_and!.
  - by rewrite !length_map.
  - rewrite !List.Forall_map. eapply Forall_impl; [exact Hraw|].
    intros img [Hlen Hlines]. split; [by rewrite !length_map|].
    rewrite !List.Forall_map. eapply Forall_impl; [exact Hlines|].
    intros line [Hw Hpx]. split; [by rewrite !length_map|].
    rewrite !List.Forall_map. by apply Forall_true.
  - rewrite !List.Forall_map. eapply Forall_impl; [exact Hraw|].
    intros img [_ Hlines]. rewrite !List.Forall_map.
    eapply Forall_impl; [exact Hlines|].
    intros line [_ Hpx]. rewrite !List.Forall_map.
    eapply Forall_impl; [exact Hpx|].
    intros p Hp. constructor; [|done]. by apply preprocess_range, inject_Z_range.
Qed.

Lemma training_set_fits_discriminator_white :
  let raw := replicate 3 (replicate 28 (replicate 28 255%Z)) in
  let x := Preprocess.x_train_dcgan (Preprocess.x_train raw) in
  length x = length raw ∧
  Forall (has_shape3 28 28 1) x ∧
  Forall (Forall (Forall (Forall (λ v, (-1 <= v <= 1)%Q)))) x.
Proof.
  intros raw. apply (training_set_fits_discriminator raw).
  apply Forall_forall. intros img ->%elem_of_replicate_inv.
  split; [done|]. apply Forall_forall. intros line ->%elem_of_replicate_inv.
  split; [done|]. apply Forall_forall. intros p ->%elem_of_replicate_inv. lia.
Defined.

(** X4: the display path inverts the preprocessing on whole images:
    channel 0 of a preprocessed image, denormalized as
    [generate_and_save_images] does before [imshow], is the raw image,
    entry by entry, whatever the entries. *)
Theorem display_restores_raw_image (raw : list Preprocess.raw_image) :
  Forall2
    (λ (img : Preprocess.raw_image) (t : image),
       ∃ p, slice_channel 0 t = Some p ∧
            Forall2 (Forall2 Qeq)
              (map (map Preprocess.denormalize) p) (map (map inject_Z) img))
    raw (Preprocess.x_train_dcgan (Preprocess.x_train raw)).
Proof.
  unfold Preprocess.x_train_dcgan, Preprocess.x_train.
  apply Forall2_fmap_r, Forall2_fmap_r, Forall_Forall2_diag, Forall_forall.
  intros img _. simpl.
  exists (map (map Preprocess.to_tanh_range)
            (map (map (λ p, Preprocess.to_unit (inject_Z p))) img)).
  split; [apply slice_channel_singletons|].
  apply Forall2_fmap_l, Forall2_fmap_l, Forall2_fmap_l, Forall2_fmap_r.
  apply Forall_Forall2_diag, Forall_forall. intros line _. simpl.
  apply Forall2_fmap_l, Forall2_fmap_l, Forall2_fmap_l, Forall2_fmap_r.
  apply Forall_Forall2_diag, Forall_forall. intros p _. simpl.
  unfold Preprocess.denormalize, Preprocess.to_tanh_range, Preprocess.to_unit. field.
Qed.

(** ** Rendering, continued *)

Section RenderingMore.
Context `{Random} `{Backend}.
Implicit Types (s : state) (l : list event).

Lemma sample_figure_take predictions :
  sample_figure (take 25 predictions) = sample_figure predictions.
Proof.
  unfold sample_figure. apply Forall2_mapM_ext, Forall_Forall2_diag, Forall_forall.
  intros i Hi%elem_of_seq. unfold sample_panel. by rewrite lookup_take_lt by lia.
Qed.

(** What a call of [generate_and_save_images] cannot change, however it
    ends: the models' variables, the flag, both random states, the seed,
    and every file but its own. *)
Lemma rendering_frame epoch x s0 :
  preserves
    (λ s, vars s = vars s0 ∧ trainable s = trainable s0 ∧ rng s = rng s0 ∧
          data_rng s = data_rng s0 ∧ seed s = seed s0 ∧
          ∀ name, name ≠ image_file_name epoch → files s !! name = files s0 !! name)
    (generate_and_save_images call_generator epoch x).
Proof.
  unfold generate_and_save_images.
  apply preserves_bind; [intros s Hs; exact Hs|intros predictions].
  apply preserves_bind; [intros s Hs; exact Hs|intros _].
  apply preserves_bind.
  { apply preserves_for_in. intros i. unfold draw_prediction.
    apply preserves_bind; [intros s Hs; exact Hs|intros _].
    apply preserves_bind.
    - unfold tensor_slice. destruct (predictions !! i) as [img|]; [|by intros s Hs].
      destruct (slice_channel 0 img); by intros s Hs.
    - intros p. apply preserves_bind; [intros s Hs; exact Hs|intros _].
      by intros s Hs. }
  intros _. apply preserves_bind; [|intros _; intros s Hs; exact Hs].
  intros s (Hv & Ht & Hr & Hd & Hs & Hf). simpl. split_and!; try done.
  intros name Hname. rewrite lookup_insert_ne by (by apply not_eq_sym). by apply Hf.
Qed.

(** *** A seed that is too short *)

Lemma train_epoch_short_seed ds bs nf E e s :
  length (seed s) < 25 →
  ∃ s' steps,
    train_epoch ds bs nf E e s
      = Raise (InvalidArgumentError (length (seed s)) (length (seed s))) s' ∧
    Forall2 (step_trace bs nf) (ds (data_rng s)).1 steps ∧
    log s' = log s ++
      EvPrint ("Epochs " +:+ pretty (e + 1) +:+ "/" +:+ pretty E)
        :: concat steps ++ [EvClearOutput; EvCallGenerator (Some false) (seed s)] ∧
    files s' = files s.
Proof.
  intros Hseed. unfold train_epoch.
  erewrite bind_ok by reflexivity.
  erewrite bind_ok by apply iterate_unfold.
  match goal with |- context [(for_in ?b _ None ≫= _) ?s1] =>
    destruct (train_pass_ok bs nf b None s1)
      as (s2 & steps & Hrun2 & Hsteps & Hlog2 & Ht2 & Hd2 & Hs2 & Hf2) end.
  erewrite bind_ok by exact Hrun2.
  erewrite bind_ok by reflexivity. erewrite bind_ok by reflexivity.
  simpl in Hlog2, Hs2, Hf2. cbv beta.
  change (seed (emit EvClearOutput s2)) with (seed s2). rewrite Hs2.
  destruct (generate_and_save_images_raise (e + 1) (seed s) (emit EvClearOutput s2))
    as (s' & Hrun & Hlog & Hf & _); [done|].
  exists s', steps. split_and!; [done|done| |].
  - rewrite Hlog. simpl. rewrite Hlog2. by rewrite <- !(assoc_L (++)).
  - by rewrite Hf.
Qed.

End RenderingMore.

(** X5: the saved grid shows the first 25 predictions and no other: a
    rendering of at least 25 rows writes the figure of the first 25
    predictions alone, so the rows of the seed past the 25th never show. *)
Theorem rendering_shows_first_25 `{Random} `{Backend}
    (epoch : nat) (x : list row) (s : state) :
  25 ≤ length x →
  ∃ s' fig,
    generate_and_save_images call_generator epoch x s = Ok tt s' ∧
    files s' !! image_file_name epoch = Some fig ∧
    sample_figure (take 25 (forward_generator (vars s) false x)) = Some fig.
Proof.
  intros Hx.
  destruct (generate_and_save_images_ok epoch x s Hx) as (s' & fig & Hrun & Hfig & _ & Hf & _).
  exists s', fig. split_and!; [done| |by rewrite sample_figure_take].
  by rewrite Hf, lookup_insert_eq.
Qed.

(** X6: a rendering, whether it returns or raises, leaves the models'
    variables, [discriminator.trainable], both random states and the seed
    as they were, and touches no file but [image_at_epoch_{epoch:04d}.png]. *)
Theorem rendering_leaves_model_alone `{Random} `{Backend}
    (epoch : nat) (x : list row) (s : state) :
  let s' := final_state (generate_and_save_images call_generator epoch x s) in
  vars s' = vars s ∧ trainable s' = trainable s ∧ rng s' = rng s ∧
  data_rng s' = data_rng s ∧ seed s' = seed s ∧
  ∀ name, name ≠ image_file_name epoch → files s' !! name = files s !! name.
Proof. intros s'. by apply (rendering_frame epoch x s s). Qed.



(** ** The script as a whole *)

Section Script.
Context `{Random} `{Backend}.
Implicit Types (s : state) (l : list event).

Lemma tf_random_normal_unfold n d s :
  tf_random_normal n d s
  = Ok (normal_rows n d (rng s)).1 (with_rng (normal_rows n d (rng s)).2 s).
Proof. unfold tf_random_normal. by destruct (normal_rows n d (rng s)). Qed.

(** The preview loop of Task 2 over indices that are all in range: it
    draws image [i] of the data set at place [i + 1] of the grid. *)
Lemma preview_loop_ok (x_train : list plane) (l : list nat) v s :
  (∀ i, i ∈ l → i < length x_train) →
  ∃ s' ps,
    for_in l (λ i,
      plt_subplot 5 5 (i + 1);;
      plt_decorate;;
      img ← numpy_index x_train i;
      plt_imshow img) v s = Ok (from_option Some v (last l)) s' ∧
    same_outside_pyplot s s' ∧
    figure s' = figure s ++ ps ∧
    Forall2 (λ i (p : panel), ∃ img, x_train !! i = Some img ∧ p = ((5, 5, i + 1), img))
      l ps.
Proof.
  intros Hl.
  destruct (for_in_ok
    (λ done s1, same_outside_pyplot s s1 ∧
       ∃ ps, figure s1 = figure s ++ ps ∧
             Forall2 (λ i (p : panel),
                        ∃ img, x_train !! i = Some img ∧ p = ((5, 5, i + 1), img))
               done ps)
    l (λ i,
      plt_subplot 5 5 (i + 1);;
      plt_decorate;;
      img ← numpy_index x_train i;
      plt_imshow img) v s) as (s' & Hrun & Hsame & ps & Hfig & Hps).
  { split; [apply same_outside_pyplot_refl|]. exists []. by rewrite app_nil_r. }
  { intros done i s1 Hi (Hsame & ps & Hfig & Hps).
    destruct (lookup_lt_is_Some_2 x_train i (Hl i Hi)) as [img Himg].
    assert (Hidx : numpy_index x_train i = mret img).
    { unfold numpy_index. by rewrite Himg. }
    erewrite bind_ok by reflexivity. erewrite bind_ok by reflexivity.
    rewrite Hidx. erewrite bind_ok by reflexivity.
    eexists. split; [reflexivity|]. split.
    - eapply same_outside_pyplot_trans; [exact Hsame|]. by repeat split.
    - exists (ps ++ [((5, 5, i + 1), img)]). simpl. rewrite Hfig, (assoc_L (++)).
      split; [done|]. apply Forall2_app; [done|]. constructor; [|done]. by exists img. }
  by exists s', ps.
Qed.

(** The same loop when the data set has fewer rows than it shows. *)
Lemma preview_loop_raise (x_train : list plane) (n : nat) v s :
  length x_train < n →
  ∃ s',
    for_in (seq 0 n) (λ i,
      plt_subplot 5 5 (i + 1);;
      plt_decorate;;
      img ← numpy_index x_train i;
      plt_imshow img) v s
      = Raise (IndexError (length x_train) (length x_train)) s' ∧
    same_outside_pyplot s s'.
Proof.
  intros Hn. set (k := length x_train) in *.
  assert (Hsplit : seq 0 n = seq 0 k ++ k :: seq (S k) (n - S k)).
  { replace n with (k + S (n - S k)) at 1 by lia. by rewrite seq_app. }
  destruct (preview_loop_ok x_train (seq 0 k) v s) as (s1 & ps & Hrun1 & Hsame1 & _).
  { intros i Hi%elem_of_seq. unfold k in Hi. lia. }
  rewrite Hsplit, for_in_app, Hrun1. simpl.
  assert (Hidx : numpy_index x_train k = raise (IndexError k k)).
  { unfold numpy_index. rewrite lookup_ge_None_2 by (unfold k; lia). done. }
  erewrite bind_raise.
  2:{ erewrite bind_ok by reflexivity. erewrite bind_ok by reflexivity.
      rewrite Hidx. by erewrite bind_raise by reflexivity. }
  eexists. split; [reflexivity|].
  eapply same_outside_pyplot_trans; [exact Hsame1|]. by repeat split.
Qed.

(** The run of the whole script on at least 25 training images. *)
Lemma script_run version (raw : list Preprocess.raw_image) s :
  25 ≤ length raw →
  ∃ s' l fig preview rest,
    main version raw s = Ok tt s' ∧
    log s' = log s ++ l ∧
    l = EvPrint ("Tensorflow version: " +:+ version) :: EvShow preview :: rest ∧
    Forall2 (λ i (p : panel),
               ∃ img, Preprocess.x_train raw !! i = Some img ∧ p = ((5, 5, i + 1), img))
      (seq 0 25) preview ∧
    updates l
      = concat (replicate (length raw / 32) [DiscriminatorUpdate; GeneratorUpdate]) ∧
    saved l = [(image_file_name 1, fig); (image_file_name 1, fig)] ∧
    files s' = <[image_file_name 1 := fig]> (files s) ∧
    trainable s' = false ∧
    length (seed s') = 32.
Proof.
  intros Hraw.
  pattern (main version raw s).
  match goal with |- ?Q0 _ => set (Post := Q0) end.
  unfold main.
  erewrite bind_ok by reflexivity. erewrite bind_ok by reflexivity.
  match goal with |- Post ((for_in _ _ None ≫= _) ?s1) =>
    destruct (preview_loop_ok (Preprocess.x_train raw) (seq 0 25) None s1)
      as (s2 & ps & Hrun2 & (Hv2 & Ht2 & Hr2 & Hd2 & Hs2 & Hf2 & Hl2) & Hfig2 & Hps) end.
  { intros i Hi%elem_of_seq. unfold Preprocess.x_train, Preprocess.raw_image in *.
    rewrite length_map. lia. }
  erewrite bind_ok by exact Hrun2. simpl in Hl2, Hf2, Hfig2. rewrite <- Hfig2 in Hps.
  erewrite bind_ok by reflexivity.
  erewrite bind_ok by apply tf_random_normal_unfold.
  erewrite bind_ok by reflexivity. erewrite bind_ok by reflexivity.
  erewrite bind_ok by reflexivity. erewrite bind_ok by reflexivity.
  erewrite bind_ok by reflexivity.
  erewrite bind_ok by apply tf_random_normal_unfold.
  erewrite bind_ok by reflexivity. cbv beta.
  match goal with |- Post ((train_dcgan ?ds _ _ _ ≫= _) ?s5) =>
    assert (Hseed : length (seed s5) = 32)
      by (unfold with_seed; cbn [seed]; apply normal_rows_length);
    destruct (train_dcgan_ok ds batch_size num_features 1 s5)
      as (s6 & lt & Hrun6 & Htrace & Hlog6 & Hf6 & Ht6 & Hs6);
      [lia|lia|]
  end.
  erewrite bind_ok by exact Hrun6.
  erewrite bind_ok by apply tf_random_normal_unfold.
  erewrite bind_ok by reflexivity.
  cbn [log files trainable with_seed with_rng with_trainable emit]
    in Hlog6, Hf6, Ht6.
  destruct (saved_run _ _ _ _ _ _ (le_n 1) Htrace) as (Hnames & earlier & fig & Hsaved).
  assert (earlier = []) as ->.
  { apply (f_equal length) in Hnames. rewrite length_fmap, Hsaved, length_app in Hnames.
    simpl in Hnames. destruct earlier; [done|simpl in Hnames; lia]. }
  simpl in Hsaved.
  assert (Hupd : updates lt
            = concat (replicate (length raw / 32) [DiscriminatorUpdate; GeneratorUpdate])).
  { apply (updates_run _ _ _ _ _ _ (length raw / 32)) in Htrace.
    - by rewrite Nat.mul_1_l in Htrace.
    - intros g. rewrite dataset_length.
      unfold Preprocess.x_train_dcgan, Preprocess.x_train. by rewrite !length_map. }
  unfold Post. eexists _, _, fig, (figure s2), _. split; [reflexivity|]. simpl.
  split_and!.
  - rewrite Hlog6, Hl2. rewrite <- !(assoc_L (++)). simpl. reflexivity.
  - reflexivity.
  - exact Hps.
  - unfold updates in *. simpl. rewrite omap_app, Hupd. simpl. by rewrite app_nil_r.
  - unfold saved in *. simpl. by rewrite omap_app, Hsaved.
  - rewrite Hf6, Hf2. unfold replay, write_all. rewrite Hsaved. simpl.
    by rewrite insert_insert_eq.
  - by apply Ht6.
  - by rewrite Hs6.
Qed.

End Script.

(** X9: on a training set of [N >= 25] images the script runs to its
    last line.  It does [N / 32] rounds of updates (one epoch), writes
    [image_at_epoch_0001.png] twice with the same figure and nothing else,
    and ends with [discriminator.trainable] at [False] and a seed of 32
    rows. *)
Theorem script_runs_to_completion `{Random} `{Backend}
    (version : string) (raw : list Preprocess.raw_image) (s : state) :
  25 ≤ length raw →
  ∃ s' l fig,
    main version raw s = Ok tt s' ∧
    log s' = log s ++ l ∧
    updates l
      = concat (replicate (length raw / 32) [DiscriminatorUpdate; GeneratorUpdate]) ∧
    saved l = [(image_file_name 1, fig); (image_file_name 1, fig)] ∧
    files s' = <[image_file_name 1 := fig]> (files s) ∧
    trainable s' = false ∧
    length (seed s') = 32.
Proof.
  intros Hraw.
  destruct (script_run version raw s Hraw)
    as (s' & l & fig & preview & rest & Hrun & Hlog & _ & _ & Hupd & Hsaved & Hf & Ht & Hs).
  by exists s', l, fig.
Qed.

Lemma script_runs_to_completion_reference :
  let raw := replicate 64 (replicate 28 (replicate 28 255%Z)) in
  ∃ (s' : @state Reference.counter_random Reference.constant_backend) l fig,
    main "2" raw Reference.start = Ok tt s' ∧
    log s' = log Reference.start ++ l ∧
    updates l
      = concat (replicate (length raw / 32) [DiscriminatorUpdate; GeneratorUpdate]) ∧
    saved l = [(image_file_name 1, fig); (image_file_name 1, fig)] ∧
    files s' = <[image_file_name 1 := fig]> (files Reference.start) ∧
    trainable s' = false ∧
    length (seed s') = 32.
Proof.
  intros raw.
  apply (script_runs_to_completion (H:=Reference.counter_random)
           (H0:=Reference.constant_backend) "2" raw Reference.start).
  unfold raw. rewrite length_replicate. lia.
Defined.

(** X10: on a training set of fewer than 25 images the script stops in
    the preview of Task 2, at the first image that is not there: no model
    is called, no random number drawn, no file written. *)
Theorem script_needs_25_images `{Random} `{Backend}
    (version : string) (raw : list Preprocess.raw_image) (s : state) :
  length raw < 25 →
  ∃ s',
    main version raw s = Raise (IndexError (length raw) (length raw)) s' ∧
    log s' = log s ++ [EvPrint ("Tensorflow version: " +:+ version)] ∧
    files s' = files s ∧ vars s' = vars s ∧ rng s' = rng s ∧
    trainable s' = trainable s.
Proof.
  intros Hraw.
  pattern (main version raw s).
  match goal with |- ?Q0 _ => set (Post := Q0) end.
  unfold main.
  erewrite bind_ok by reflexivity. erewrite bind_ok by reflexivity.
  match goal with |- Post ((for_in _ _ None ≫= _) ?s1) =>
    destruct (preview_loop_raise (Preprocess.x_train raw) 25 None s1)
      as (s2 & Hrun2 & (Hv2 & Ht2 & Hr2 & Hd2 & Hs2 & Hf2 & Hl2)) end.
  { unfold Preprocess.x_train, Preprocess.raw_image in *. by rewrite length_map. }
  erewrite bind_raise by exact Hrun2.
  unfold Post. exists s2. unfold Preprocess.x_train. rewrite length_map.
  by split_and!.
Qed.

Lemma script_needs_25_images_reference :
  let raw := replicate 10 (replicate 28 (replicate 28 255%Z)) in
  ∃ (s' : @state Reference.counter_random Reference.constant_backend),
    main "2" raw Reference.start = Raise (IndexError (length raw) (length raw)) s' ∧
    log s' = log Reference.start ++ [EvPrint ("Tensorflow version: " +:+ "2")] ∧
    files s' = files Reference.start ∧ vars s' = vars Reference.start ∧
    rng s' = rng Reference.start ∧ trainable s' = trainable Reference.start.
Proof.
  intros raw.
  apply (script_needs_25_images (H:=Reference.counter_random)
           (H0:=Reference.constant_backend) "2" raw Reference.start).
  unfold raw. rewrite length_replicate. lia.
Defined.

(** ** File names *)

Section FileNames.
#[local] Open Scope N_scope.

Lemma digit_value_pretty (d : N) : d < 10 → digit_value (pretty_N_char d) = Some d.
Proof.
  intros Hd.
  assert (d = 0 ∨ d = 1 ∨ d = 2 ∨ d = 3 ∨ d = 4 ∨ d = 5 ∨ d = 6 ∨ d = 7 ∨ d = 8 ∨ d = 9)
    as Hcases by lia.
  repeat (destruct Hcases as [->|Hcases]; [done|]). by subst.
Qed.

Lemma string_app_assoc (a b c : string) : (a +:+ b) +:+ c = a +:+ (b +:+ c).
Proof.
  induction a as [|ch a IH]; [done|].
  change (String ch ((a +:+ b) +:+ c) = String ch (a +:+ (b +:+ c))). by rewrite IH.
Qed.

Lemma string_length_app (a b : string) :
  String.length (a +:+ b) = (String.length a + String.length b)%nat.
Proof.
  induction a as [|ch a IH]; [done|].
  change (S (String.length (a +:+ b)) = S (String.length a + String.length b)).
  by rewrite IH.
Qed.

Lemma zeros_length (k : nat) : String.length (zeros k) = k.
Proof.
  induction k as [|k IH]; [done|].
  change (S (String.length (zeros k)) = S k). by rewrite IH.
Qed.

Lemma pretty_N_go_app (x : N) (s t : string) :
  pretty_N_go x s +:+ t = pretty_N_go x (s +:+ t).
Proof.
  revert s. induction (N.lt_wf_0 x) as [x _ IH]; intros s.
  assert (x = 0 ∨ 0 < x) as [->|Hx] by lia; [by rewrite !pretty_N_go_0|].
  rewrite (pretty_N_go_step x s), (pretty_N_go_step x (s +:+ t)) by done.
  by rewrite IH by (by apply N.div_lt).
Qed.

Lemma decimal_pretty_N_go (x : N) (s : string) :
  decimal_prefix 0 (pretty_N_go x s) = decimal_prefix x s.
Proof.
  revert s. induction (N.lt_wf_0 x) as [x _ IH]; intros s.
  assert (x = 0 ∨ 0 < x) as [->|Hx] by lia; [by rewrite pretty_N_go_0|].
  rewrite pretty_N_go_step by done. rewrite IH by (by apply N.div_lt). simpl.
  rewrite digit_value_pretty by (by apply N.mod_lt).
  f_equal. pose proof (N.div_mod x 10). lia.
Qed.

Lemma decimal_pretty (n : nat) (t : string) :
  decimal_prefix 0 (pretty n +:+ t) = decimal_prefix (N.of_nat n) t.
Proof.
  unfold pretty, pretty_nat, pretty, pretty_N.
  destruct (decide (N.of_nat n = 0)) as [->|Hn]; [done|].
  by rewrite pretty_N_go_app, decimal_pretty_N_go.
Qed.

Lemma decimal_zeros (k : nat) (t : string) :
  decimal_prefix 0 (zeros k +:+ t) = decimal_prefix 0 t.
Proof. induction k as [|k IH]; [done|]. exact IH. Qed.

Lemma decimal_format_04d (n : nat) :
  decimal_prefix 0 (format_04d n +:+ ".png") = N.of_nat n.
Proof.
  unfold format_04d. cbv zeta.
  by rewrite string_app_assoc, decimal_zeros, decimal_pretty.
Qed.

Lemma epoch_of_image_file_name (epoch : nat) :
  epoch_of_file_name (image_file_name epoch) = Some epoch.
Proof.
  unfold epoch_of_file_name, image_file_name.
  change (strip_prefix "image_at_epoch_" ("image_at_epoch_" +:+ ?t)) with (Some t).
  simpl. by rewrite decimal_format_04d, Nat2N.id.
Qed.

End FileNames.

(** X11: a sample image's name spells its epoch number: the number can
    be read back from the name, so two epochs never share a file, the
    names of epochs [1..E] are pairwise distinct, and the zero-padded
    number is at least four characters wide. *)
Theorem image_file_names_are_distinct :
  (∀ epoch, epoch_of_file_name (image_file_name epoch) = Some epoch) ∧
  (∀ e1 e2, image_file_name e1 = image_file_name e2 → e1 = e2) ∧
  (∀ E, NoDup (image_file_name <$> seq 1 E)) ∧
  (∀ epoch, 4 ≤ String.length (format_04d epoch)).
Proof.
  assert (Hinj : ∀ e1 e2, image_file_name e1 = image_file_name e2 → e1 = e2).
  { intros e1 e2 Heq. apply (f_equal epoch_of_file_name) in Heq.
    rewrite !epoch_of_image_file_name in Heq. by injection Heq. }
  split_and!; [apply epoch_of_image_file_name|done| |].
  - intros E. apply NoDup_fmap_2; [exact Hinj|apply NoDup_seq].
  - intros epoch. unfold format_04d. cbv zeta.
    rewrite string_length_app, zeros_length. lia.
Qed.

(** X12: before any model is built the script previews the data: on
    [N >= 25] training images its first figure shown has 25 panels, panel
    [i] at place [i + 1] of a 5 by 5 grid holding training image [i]
    scaled to [[0, 1]] (by [/ 255], with no denormalization). *)
Theorem script_previews_first_25 `{Random} `{Backend}
    (version : string) (raw : list Preprocess.raw_image) (s : state) :
  25 ≤ length raw →
  ∃ s' preview rest,
    main version raw s = Ok tt s' ∧
    log s' = log s ++
      EvPrint ("Tensorflow version: " +:+ version) :: EvShow preview :: rest ∧
    length preview = 25 ∧
    ∀ i, i < 25 →
      ∃ img, raw !! i = Some img ∧
             preview !! i
             = Some ((5, 5, i + 1), map (map (λ p, (inject_Z p / 255)%Q)) img).
Proof.
  intros Hraw.
  destruct (script_run version raw s Hraw)
    as (s' & l & fig & preview & rest & Hrun & Hlog & -> & Hprev & _).
  exists s', preview, rest. split_and!; [done|done| |].
  - apply Forall2_length in Hprev. by rewrite length_seq in Hprev.
  - intros i Hi.
    destruct (Forall2_lookup_l _ _ _ i i Hprev) as (p & Hp & img & Himg & ->).
    { by rewrite lookup_seq_lt. }
    unfold Preprocess.x_train, Preprocess.raw_image in *.
    rewrite list_lookup_fmap in Himg.
    destruct (raw !! i) as [r|]; [|done]. injection Himg as <-.
    exists r. split; [done|exact Hp].
Qed.

Section ExtraRuns.
#[local] Existing Instance Reference.counter_random.
#[local] Existing Instance Reference.constant_backend.

Lemma script_previews_first_25_reference :
  let raw := replicate 64 (replicate 28 (replicate 28 255%Z)) in
  ∃ s' preview rest,
    main "2" raw Reference.start = Ok tt s' ∧
    log s' = log Reference.start ++
      EvPrint ("Tensorflow version: " +:+ "2") :: EvShow preview :: rest ∧
    length preview = 25 ∧
    ∀ i, i < 25 →
      ∃ img, raw !! i = Some img ∧
             preview !! i
             = Some ((5, 5, i + 1), map (map (λ p, (inject_Z p / 255)%Q)) img).
Proof.
  intros raw. apply (script_previews_first_25 "2" raw Reference.start).
  unfold raw. rewrite length_replicate. lia.
Defined.

Lemma dataset_batch_window_reference :
  let x := Reference.numbered 2000 in
  let b := default [] ((dataset x 0%N).1 !! 0) in
  length b = 32 ∧ Forall (λ y, y ∈ take (1000 + 32 * (0 + 1)) x) b.
Proof.
  intros x b.
  assert (Hb : (dataset x (0%N : @RNG Reference.counter_random)).1 !! 0 = Some b).
  { by vm_compute. }
  split; [by vm_compute|].
  apply Forall_forall. intros y Hy.
  exact (dataset_batch_window x (0%N : @RNG Reference.counter_random) 0 b y Hb Hy).
Defined.

Lemma rendering_shows_first_25_reference :
  ∃ s' fig,
    generate_and_save_images call_generator 3 (seed Reference.ready) Reference.ready
      = Ok tt s' ∧
    files s' !! image_file_name 3 = Some fig ∧
    sample_figure (take 25 (forward_generator (vars Reference.ready) false
                              (seed Reference.ready))) = Some fig.
Proof.
  apply (rendering_shows_first_25 3 (seed Reference.ready) Reference.ready).
  apply reference_seed_rows.
Defined.



End ExtraRuns.

(** ** Shapes at the fit calls *)

(** X13: in an iteration with the script's [num_features], on a batch of
    [batch_size] images, each label tensor has the shape of the output it
    is compared with: the discriminator, on the [2 * batch_size] fake and
    real images, gives [[2 * batch_size, 1]], the shape of [y1]; the
    stacked model, on the [batch_size] noise rows of width 100, gives
    [[batch_size, 1]], the shape of [y2]. *)
Theorem fit_labels_match_outputs `{Random} `{Backend}
    (bs : nat) (X_batch : list image) (s : state) :
  length X_batch = bs →
  ∃ s' noise X y1 y2,
    train_step bs num_features X_batch s = Ok tt s' ∧
    log s' = log s ++
      [EvCallGenerator None noise; EvDiscTrain true X y1; EvGanTrain false noise y2] ∧
    Forall (λ r : row, length r = num_features) noise ∧
    output_shape discriminator [length X; 28; 28; 1] = Some [length y1; 1] ∧
    Forall (λ r : row, length r = 1) y1 ∧
    gan_output_shape [length noise; num_features] = Some [length y2; 1] ∧
    Forall (λ r : row, length r = 1) y2.
Proof.
  intros HX.
  unfold train_step. rewrite bind_unfold. unfold tf_random_normal.
  pose proof (normal_rows_length bs num_features (rng s)) as Hn.
  pose proof (normal_rows_width bs num_features (rng s)) as Hw.
  destruct (normal_rows bs num_features (rng s)) as [noise g]. simpl in Hn, Hw.
  destruct (forward_generator_images (vars s) false noise) as [Hfake _].
  eexists _, noise, _, _, _. split; [reflexivity|]. simpl.
  split_and!.
  - by rewrite <- !(assoc_L (++)).
  - done.
  - rewrite !length_app, !length_replicate, Hfake, Hn, HX. done.
  - apply Forall_app. split; apply Forall_forall; by intros r ->%elem_of_replicate_inv.
  - rewrite length_replicate, Hn. done.
  - apply Forall_forall. by intros r ->%elem_of_replicate_inv.
Qed.

Lemma fit_labels_match_outputs_reference :
  let X_batch := replicate 32 Reference.black_image in
  ∃ (s' : @state Reference.counter_random Reference.constant_backend) noise X y1 y2,
    train_step 32 num_features X_batch Reference.ready = Ok tt s' ∧
    log s' = log Reference.ready ++
      [EvCallGenerator None noise; EvDiscTrain true X y1; EvGanTrain false noise y2] ∧
    Forall (λ r : row, length r = num_features) noise ∧
    output_shape discriminator [length X; 28; 28; 1] = Some [length y1; 1] ∧
    Forall (λ r : row, length r = 1) y1 ∧
    gan_output_shape [length noise; num_features] = Some [length y2; 1] ∧
    Forall (λ r : row, length r = 1) y2.
Proof.
  intros X_batch.
  apply (fit_labels_match_outputs (H:=Reference.counter_random)
           (H0:=Reference.constant_backend) 32 X_batch Reference.ready).
  unfold X_batch. by rewrite length_replicate.
Defined.
